(** * xivdyetools-logger: the logging pipeline, embedded and verified

    A shallow embedding of [core/base-logger.ts] (the abstract [BaseLogger],
    its [DelegatingLogger] children, the redaction engine and the level
    filter) and of the [perf] timer registry of [presets/browser.ts]. The
    base logger is embedded in its current revision, the one with the
    sanitizer patterns of LOG-ERR-001, the bearer lookahead and the
    delegating children of LOG-API-001; the two methods that the copy of
    release 1.0.0 has differently are embedded next to it.

    Conventions of the embedding
    - JavaScript strings are [string]s over the code units 0..255.
    - A [LogContext] object is a finite map from property names to values
      ([gmap string JsValue]); the spread [{...a, ...b}] is the union in
      which [b] wins.
    - The abstract [write(entry)] of a [BaseLogger] is modelled by the list
      of entries it has received, oldest first.
    - The readings of the clock and the ISO timestamp of an entry are
      arguments of the calls that read them.
    - Numbers are integer valued; clock readings are whole milliseconds.
    - An asynchronous function is a function on the store that settles,
      resolved or rejected. *)

From Stdlib Require Import ZArith QArith Ascii String List Lia.
From stdpp Require Import gmap strings list pretty.

Local Open Scope Z_scope.
Local Open Scope string_scope.

(** * Regular expressions of the sanitizer

    The fragment of ECMAScript regular expressions that
    [sanitizeErrorMessage] uses, with the backtracking semantics of the
    language: alternatives are tried left to right, quantifiers are greedy
    or lazy, a negative lookahead consumes nothing. *)

Module Regex.

(** Members of a character class: a character, or the escape [\s]. *)
Inductive citem : Type :=
| CChar (c : ascii)
| CSpace.

Inductive regex : Type :=
| Empty
| Lit (c : ascii)
| Class (negated : bool) (items : list citem)
| Seq (r1 r2 : regex)
| Alt (r1 r2 : regex)
| Star (greedy : bool) (r : regex)
| NegLookahead (r : regex).

(** [\s] on the code units 0..255: TAB, LF, VT, FF, CR, SPACE, NBSP. *)
Definition is_whitespace (c : ascii) : bool :=
  let n := nat_of_ascii c in
  ((9 <=? n)%nat && (n <=? 13)%nat) || (n =? 32)%nat || (n =? 160)%nat.

(** Canonicalize of the [i] flag. Every pattern character of the sanitizer
    is ASCII, and a character above 127 never canonicalizes to an ASCII
    one, so folding the ASCII letters is exact here. *)
Definition canonicalize (c : ascii) : ascii :=
  let n := nat_of_ascii c in
  if ((97 <=? n)%nat && (n <=? 122)%nat)%bool then ascii_of_nat (n - 32) else c.

Definition char_eq (icase : bool) (a b : ascii) : bool :=
  if icase then Ascii.eqb (canonicalize a) (canonicalize b) else Ascii.eqb a b.

Definition citem_matches (icase : bool) (x : ascii) (i : citem) : bool :=
  match i with
  | CChar c => char_eq icase c x
  | CSpace => is_whitespace x
  end.

Definition class_matches (icase negated : bool) (items : list citem) (x : ascii) : bool :=
  xorb negated (existsb (citem_matches icase x) items).

(** The iterations of a quantified atom whose matcher is [atom]: a greedy
    quantifier tries one more iteration before the continuation, a lazy
    one the continuation first. An iteration that consumes nothing is
    rejected, as in ECMAScript, so the length of the input bounds the
    number of iterations. *)
Fixpoint iterate (atom : list ascii -> (list ascii -> option (list ascii)) -> option (list ascii))
    (greedy : bool) (k : list ascii -> option (list ascii))
    (fuel : nat) (s : list ascii) {struct fuel} : option (list ascii) :=
  match fuel with
  | O => k s
  | S fuel' =>
      let again :=
        atom s (fun s' =>
          if (length s' <? length s)%nat then iterate atom greedy k fuel' s' else None) in
      if greedy then
        match again with
        | Some rest => Some rest
        | None => k s
        end
      else
        match k s with
        | Some rest => Some rest
        | None => again
        end
  end.

(** The matcher, in continuation-passing style: [run icase r s k] matches
    [r] at the front of [s] and hands the rest of the input to [k]; the
    first success in priority order is the result. *)
Fixpoint run (icase : bool) (r : regex) (s : list ascii)
    (k : list ascii -> option (list ascii)) {struct r} : option (list ascii) :=
  match r with
  | Empty => k s
  | Lit c =>
      match s with
      | x :: s' => if char_eq icase c x then k s' else None
      | [] => None
      end
  | Class negated items =>
      match s with
      | x :: s' => if class_matches icase negated items x then k s' else None
      | [] => None
      end
  | Seq r1 r2 => run icase r1 s (fun s' => run icase r2 s' k)
  | Alt r1 r2 =>
      match run icase r1 s k with
      | Some rest => Some rest
      | None => run icase r2 s k
      end
  | Star greedy r1 => iterate (run icase r1) greedy k (length s) s
  | NegLookahead r1 =>
      match run icase r1 s (fun s' => Some s') with
      | Some _ => None
      | None => k s
      end
  end.

(** Length of the match of [r] at the front of [s], if there is one. *)
Definition match_length (icase : bool) (r : regex) (s : list ascii) : option nat :=
  match run icase r s (fun s' => Some s') with
  | Some rest => Some (length s - length rest)%nat
  | None => None
  end.

(** [String.prototype.replace] with a global regular expression and a
    replacement without [$]: the matches are found left to right, each
    search starting where the previous match ended; [skip] counts the
    characters of the current match that are still to be dropped. An
    empty match inserts the replacement and moves on by one character. *)
Fixpoint replace_from (icase : bool) (r : regex) (replacement : list ascii)
    (s : list ascii) (skip : nat) {struct s} : list ascii :=
  match s with
  | [] =>
      match skip, match_length icase r [] with
      | O, Some _ => replacement
      | _, _ => []
      end
  | c :: s' =>
      match skip with
      | S n => replace_from icase r replacement s' n
      | O =>
          match match_length icase r s with
          | Some (S n) => replacement ++ replace_from icase r replacement s' n
          | Some O => replacement ++ c :: replace_from icase r replacement s' O
          | None => c :: replace_from icase r replacement s' O
          end
      end
  end.

Definition replace (icase : bool) (r : regex) (replacement : string) (s : string) : string :=
  string_of_list_ascii
    (replace_from icase r (list_ascii_of_string replacement) (list_ascii_of_string s) O).

(** Pattern syntax. *)
Fixpoint lits (s : string) : regex :=
  match s with
  | EmptyString => Empty
  | String c EmptyString => Lit c
  | String c s' => Seq (Lit c) (lits s')
  end.

Definition Opt (r : regex) : regex := Alt r Empty.
Definition Plus (r : regex) : regex := Seq r (Star true r).
Definition Many (r : regex) : regex := Star true r.
Definition LazyMany (r : regex) : regex := Star false r.
Definition Ws : regex := Class false [CSpace].
Definition NonWs : regex := Class true [CSpace].
Definition OneOf (s : string) : regex := Class false (map CChar (list_ascii_of_string s)).

End Regex.

(** * Redaction engine: message sanitization ([sanitizeErrorMessage]) *)

Import Regex.

Definition REDACTED : string := "[REDACTED]".

Definition dquote : ascii := "034"%char.
Definition squote : ascii := "'"%char.

(** The quote classes of the patterns. In the comments of this file the
    double quote of the source patterns is written [\x22]: the source
    class of both quote characters reads [[\x22']] here. *)
Definition Quote : regex := Class false [CChar dquote; CChar squote].
Definition NotQuote : regex := Class true [CChar dquote; CChar squote].

(** [(?:[\x22']([^\x22']*?)[\x22']|[^\s,;]+)]: a quoted value, else an
    unquoted one. The capture group is not used by the replacement. *)
Definition Value : regex :=
  Alt (Seq Quote (Seq (LazyMany NotQuote) Quote))
      (Plus (Class true [CSpace; CChar ","%char; CChar ";"%char])).

(** [key[=:]\s*value] *)
Definition KeyValue (key : regex) : regex :=
  Seq key (Seq (OneOf "=:") (Seq (Many Ws) Value)).

(** [/Bearer\s+\S+/gi] *)
Definition re_bearer : regex := Seq (lits "Bearer") (Seq (Plus Ws) (Plus NonWs)).
(** [/token[=:]\s*(?:[\x22']([^\x22']*?)[\x22']|[^\s,;]+)/gi] and its siblings *)
Definition re_token : regex := KeyValue (lits "token").
Definition re_secret : regex := KeyValue (lits "secret").
Definition re_password : regex := KeyValue (lits "password").
(** [/api[_-]?key[=:]\s*(...)/gi] *)
Definition re_api_key : regex :=
  KeyValue (Seq (lits "api") (Seq (Opt (OneOf "_-")) (lits "key"))).
(** [/authorization[=:]\s*(?!Bearer\s)(?:...)/gi] *)
Definition re_authorization : regex :=
  Seq (lits "authorization")
      (Seq (OneOf "=:")
           (Seq (Many Ws) (Seq (NegLookahead (Seq (lits "Bearer") Ws)) Value))).
(** [/access[_-]?token[=:]\s*(...)/gi], [/refresh[_-]?token[=:]\s*(...)/gi] *)
Definition re_access_token : regex :=
  KeyValue (Seq (lits "access") (Seq (Opt (OneOf "_-")) (lits "token"))).
Definition re_refresh_token : regex :=
  KeyValue (Seq (lits "refresh") (Seq (Opt (OneOf "_-")) (lits "token"))).

(** The rules, in the order in which the chained [.replace] calls apply. *)
Definition sanitize_rules : list (regex * string) :=
  [ (re_bearer, "Bearer [REDACTED]");
    (re_token, "token=[REDACTED]");
    (re_secret, "secret=[REDACTED]");
    (re_password, "password=[REDACTED]");
    (re_api_key, "api_key=[REDACTED]");
    (re_authorization, "authorization=[REDACTED]");
    (re_access_token, "access_token=[REDACTED]");
    (re_refresh_token, "refresh_token=[REDACTED]") ].

Definition apply_rule (message : string) (rule : regex * string) : string :=
  replace true (fst rule) (snd rule) message.

Definition sanitizeErrorMessage (message : string) : string :=
  fold_left apply_rule sanitize_rules message.

(** * JavaScript values

    The values that reach the logger as an [unknown] error argument or as
    the value of a context property. A number is an integer of magnitude
    below 10^21, which [String] prints in plain digits, or NaN.
    An object that is not an [Error] carries the result of its string
    conversion when it defines one; an [Error] carries the attributes that
    [formatError] reads. *)

Inductive CodeAttr : Type :=
| CodeAbsent
| CodeString (code : string)
| CodeOther.

Inductive JsValue : Type :=
| VUndefined
| VNull
| VBool (b : bool)
| VNum (n : Z)
| VNaN
| VStr (s : string)
| VObject (toString : option string)
| VError (name message : string) (code : CodeAttr) (stack : option string).

(** ToBoolean, as used by [if (error)]. *)
Definition truthy (v : JsValue) : bool :=
  match v with
  | VUndefined | VNull | VNaN => false
  | VBool b => b
  | VNum n => negb (n =? 0)%Z
  | VStr s => negb (String.eqb s "")
  | VObject _ | VError _ _ _ _ => true
  end.

(** [error instanceof Error] *)
Definition instanceof_Error (v : JsValue) : bool :=
  match v with
  | VError _ _ _ _ => true
  | _ => false
  end.

(** [String(v)] *)
Definition js_String (v : JsValue) : string :=
  match v with
  | VUndefined => "undefined"
  | VNull => "null"
  | VBool true => "true"
  | VBool false => "false"
  | VNum n => pretty n
  | VNaN => "NaN"
  | VStr s => s
  | VObject None => "[object Object]"
  | VObject (Some s) => s
  | VError name message _ _ =>
      if String.eqb name "" then message
      else if String.eqb message "" then name
      else name +:+ ": " +:+ message
  end.

(** * Data model ([types.ts]) *)

Inductive LogLevel : Type := debug_level | info_level | warn_level | error_level.

Definition level_name (l : LogLevel) : string :=
  match l with
  | debug_level => "debug"
  | info_level => "info"
  | warn_level => "warn"
  | error_level => "error"
  end.

Abbreviation LogContext := (gmap string JsValue).

Inductive Format : Type := json | pretty_format.

(** [LoggerConfig]. The declared type of [level] is the union of the four
    level names, but nothing checks the value that is passed at run time,
    so the field holds any value. [prefix] and [redactFields] are optional. *)
Record LoggerConfig : Type := {
  cfg_level : JsValue;
  cfg_format : Format;
  cfg_timestamps : bool;
  cfg_prefix : option string;
  cfg_sanitizeErrors : bool;
  cfg_redactFields : option (list string)
}.

Record ErrorInfo : Type := {
  err_name : string;
  err_message : string;
  err_code : option string;
  err_stack : option string
}.

Record LogEntry : Type := {
  entry_level : LogLevel;
  entry_message : string;
  entry_timestamp : string;
  entry_context : option LogContext;
  entry_error : option ErrorInfo
}.

(** * The base logger ([core/base-logger.ts]) *)

(** Log levels in order of severity (for filtering) *)
Definition LOG_LEVELS : list JsValue :=
  [VStr "debug"; VStr "info"; VStr "warn"; VStr "error"].

Definition DEFAULT_REDACT_FIELDS : list string :=
  ["password"; "token"; "secret"; "authorization"; "cookie";
   "api_key"; "apiKey"; "access_token"; "refresh_token"].

(** Strict equality [===] against an element of [LOG_LEVELS], that is,
    against a string. *)
Definition strict_eq_string (s : string) (v : JsValue) : bool :=
  match v with
  | VStr s' => String.eqb s s'
  | _ => false
  end.

Definition strict_eq_level (x v : JsValue) : bool :=
  match x with
  | VStr s => strict_eq_string s v
  | _ => false
  end.

(** [Array.prototype.indexOf]: the first index of [v], or -1. *)
Fixpoint indexOf_from (l : list JsValue) (v : JsValue) (i : Z) : Z :=
  match l with
  | [] => (-1)%Z
  | x :: l' => if strict_eq_level x v then i else indexOf_from l' v (i + 1)%Z
  end.

Definition indexOf (l : list JsValue) (v : JsValue) : Z := indexOf_from l v 0%Z.

(** A [BaseLogger] instance: its configuration, its global context, and
    the entries its [write] has received. *)
Record BaseLogger : Type := {
  config : LoggerConfig;
  globalContext : LogContext;
  written : list LogEntry
}.

(** The constructor spreads the given partial configuration over the
    defaults. *)
Record PartialConfig : Type := {
  opt_level : option JsValue;
  opt_format : option Format;
  opt_timestamps : option bool;
  opt_prefix : option string;
  opt_sanitizeErrors : option bool;
  opt_redactFields : option (list string)
}.

Definition no_options : PartialConfig :=
  {| opt_level := None; opt_format := None; opt_timestamps := None;
     opt_prefix := None; opt_sanitizeErrors := None; opt_redactFields := None |}.

Definition new_BaseLogger (c : PartialConfig) : BaseLogger :=
  {| config :=
       {| cfg_level := default (VStr "info") (opt_level c);
          cfg_format := default json (opt_format c);
          cfg_timestamps := default true (opt_timestamps c);
          cfg_prefix := opt_prefix c;
          cfg_sanitizeErrors := default true (opt_sanitizeErrors c);
          cfg_redactFields := Some (default DEFAULT_REDACT_FIELDS (opt_redactFields c)) |};
     globalContext := ∅;
     written := [] |}.

(** [write(entry)] *)
Definition write (self : BaseLogger) (entry : LogEntry) : BaseLogger :=
  {| config := config self;
     globalContext := globalContext self;
     written := written self ++ [entry] |}.

(** [shouldLog(level)] *)
Definition shouldLog (self : BaseLogger) (level : LogLevel) : bool :=
  (indexOf LOG_LEVELS (VStr (level_name level)) >=? indexOf LOG_LEVELS (cfg_level (config self)))%Z.

(** [{...a, ...b}]: the properties of [a], overridden by those of [b]. *)
Definition spread (a b : LogContext) : LogContext := b ∪ a.

(** The property names every plain object inherits from
    [Object.prototype]; [field in redacted] is true of them too. *)
Definition Object_prototype_names : list string :=
  ["constructor"; "__defineGetter__"; "__defineSetter__"; "hasOwnProperty";
   "__lookupGetter__"; "__lookupSetter__"; "isPrototypeOf";
   "propertyIsEnumerable"; "toString"; "valueOf"; "__proto__"; "toLocaleString"].

(** [field in o] *)
Definition has_property (o : LogContext) (field : string) : bool :=
  bool_decide (is_Some (o !! field)) || bool_decide (field ∈ Object_prototype_names).

(** [o[field] = v]. Assigning a string through the inherited [__proto__]
    accessor changes nothing; every other assignment defines or updates
    an own property. *)
Definition set_property (o : LogContext) (field : string) (v : JsValue) : LogContext :=
  if bool_decide (field = "__proto__") && negb (bool_decide (is_Some (o !! field)))
  then o
  else <[field := v]> o.

(** [Object.assign(target, source)]: every own property of [source] is
    assigned to [target]. As for [set_property], the assignment of
    [__proto__] defines no property unless [target] has one of its own. *)
Definition Object_assign (target source : LogContext) : LogContext :=
  (if bool_decide (is_Some (target !! "__proto__")) then source
   else delete "__proto__" source) ∪ target.

(** The body of the loop of [redactSensitiveFields]. *)
Definition redact_field (redacted : LogContext) (field : string) : LogContext :=
  if has_property redacted field then set_property redacted field (VStr REDACTED)
  else redacted.

(** [this.config.redactFields || DEFAULT_REDACT_FIELDS] *)
Definition fieldsToRedact (self : BaseLogger) : list string :=
  default DEFAULT_REDACT_FIELDS (cfg_redactFields (config self)).

(** [redactSensitiveFields(context)] *)
Definition redactSensitiveFields (self : BaseLogger) (context : LogContext) : LogContext :=
  fold_left redact_field (fieldsToRedact self) context.

(** [mergeContext(context?)]; [None] is the absent argument. *)
Definition mergeContext (self : BaseLogger) (context : option LogContext) : option LogContext :=
  match context with
  | None =>
      if bool_decide (globalContext self = ∅) then None
      else Some (redactSensitiveFields self (spread (globalContext self) ∅))
  | Some c => Some (redactSensitiveFields self (spread (globalContext self) c))
  end.

(** [formatError(error)] *)
Definition formatError (self : BaseLogger) (error : JsValue) : ErrorInfo :=
  match error with
  | VError name message code stack =>
      {| err_name := name;
         err_message :=
           if cfg_sanitizeErrors (config self) then sanitizeErrorMessage message else message;
         err_code := match code with CodeString c => Some c | _ => None end;
         err_stack := if cfg_sanitizeErrors (config self) then None else stack |}
  | _ => {| err_name := "Unknown"; err_message := js_String error; err_code := None; err_stack := None |}
  end.

(** The message with the configured prefix; an empty prefix is falsy. *)
Definition prefixed (self : BaseLogger) (message : string) : string :=
  match cfg_prefix (config self) with
  | Some p => if String.eqb p "" then message else "[" +:+ p +:+ "] " +:+ message
  | None => message
  end.

(** [createEntry(level, message, context?, error?)]; [timestamp] is the
    value of [new Date().toISOString()] at the call, and [VUndefined] is
    the absent error argument. *)
Definition createEntry (self : BaseLogger) (level : LogLevel) (message : string)
    (context : option LogContext) (error : JsValue) (timestamp : string) : LogEntry :=
  {| entry_level := level;
     entry_message := prefixed self message;
     entry_timestamp := timestamp;
     entry_context :=
       match mergeContext self context with
       | Some merged => if bool_decide (merged = ∅) then None else Some merged
       | None => None
       end;
     entry_error := if truthy error then Some (formatError self error) else None |}.

(** The [Logger] interface. *)
Definition debug (self : BaseLogger) (message : string) (context : option LogContext)
    (timestamp : string) : BaseLogger :=
  if shouldLog self debug_level
  then write self (createEntry self debug_level message context VUndefined timestamp)
  else self.

Definition info (self : BaseLogger) (message : string) (context : option LogContext)
    (timestamp : string) : BaseLogger :=
  if shouldLog self info_level
  then write self (createEntry self info_level message context VUndefined timestamp)
  else self.

Definition warn (self : BaseLogger) (message : string) (context : option LogContext)
    (timestamp : string) : BaseLogger :=
  if shouldLog self warn_level
  then write self (createEntry self warn_level message context VUndefined timestamp)
  else self.

Definition error (self : BaseLogger) (message : string) (error : JsValue)
    (context : option LogContext) (timestamp : string) : BaseLogger :=
  if shouldLog self error_level
  then write self (createEntry self error_level message context error timestamp)
  else self.

(** [setContext(context)] *)
Definition setContext (self : BaseLogger) (context : LogContext) : BaseLogger :=
  {| config := config self;
     globalContext := spread (globalContext self) context;
     written := written self |}.

(** ** Timing helpers

    [time(label)] reads the clock and returns a closure over the reading;
    [Timer] is that closure and [Timer_end] is its call. The clock
    readings ([performance.now()], else [Date.now()]) are arguments. *)

Record Timer : Type := {
  timer_label : string;
  timer_start : Z
}.

(** [n.toFixed(2)] of an integer valued number *)
Definition toFixed2 (n : Z) : string := pretty n +:+ ".00".

Definition time (label : string) (now : Z) : Timer :=
  {| timer_label := label; timer_start := now |}.

Definition Timer_end (self : BaseLogger) (t : Timer) (now : Z) (timestamp : string)
    : Z * BaseLogger :=
  let duration := (now - timer_start t)%Z in
  (duration,
   debug self (timer_label t +:+ ": " +:+ toFixed2 duration +:+ "ms")
     (Some {[ "duration" := VNum duration; "label" := VStr (timer_label t) ]})
     timestamp).

(** * Objects and references

    A child logger keeps a reference to its parent and a reference to the
    context object it was given, which [setContext] updates in place. The
    store holds the logger instances and the context objects that the
    application has handed out by reference. The [globalContext] of a
    [BaseLogger] is a protected field that is only ever assigned a fresh
    spread object and is never returned, so it lives inside its logger.
    A reference of a running program always designates a live object;
    the functions below leave the store as it is, or read an empty
    object, where a reference designates nothing. *)

Record World : Type := {
  loggers : gmap nat BaseLogger;
  objects : gmap nat LogContext
}.

Definition with_logger (w : World) (id : nat) (f : BaseLogger -> BaseLogger) : World :=
  {| loggers := alter f id (loggers w); objects := objects w |}.

Definition read_object (w : World) (ref : nat) : LogContext :=
  default ∅ (objects w !! ref).

(** A new object literal. *)
Definition alloc (w : World) (o : LogContext) : nat * World :=
  let ref := fresh (dom (objects w)) in
  (ref, {| loggers := loggers w; objects := <[ref := o]> (objects w) |}).

(** The outcome of an awaited promise. *)
Inductive Settled (T : Type) : Type :=
| Resolved (value : T)
| Rejected (reason : JsValue).
Arguments Resolved {T} value.
Arguments Rejected {T} reason.

(** [class DelegatingLogger]: [parent] refers to a [BaseLogger],
    [childContext] to a context object. *)
Record DelegatingLogger : Type := {
  parent : nat;
  childContext : nat
}.

(** The methods of [BaseLogger] on an instance in the store. *)
Module Base.

Definition debug (w : World) (self : nat) (message : string) (context : option LogContext)
    (timestamp : string) : World :=
  with_logger w self (fun l => debug l message context timestamp).

Definition info (w : World) (self : nat) (message : string) (context : option LogContext)
    (timestamp : string) : World :=
  with_logger w self (fun l => info l message context timestamp).

Definition warn (w : World) (self : nat) (message : string) (context : option LogContext)
    (timestamp : string) : World :=
  with_logger w self (fun l => warn l message context timestamp).

Definition error (w : World) (self : nat) (message : string) (err : JsValue)
    (context : option LogContext) (timestamp : string) : World :=
  with_logger w self (fun l => error l message err context timestamp).

Definition setContext (w : World) (self : nat) (context : LogContext) : World :=
  with_logger w self (fun l => setContext l context).

(** [child(context)]: [new DelegatingLogger(this, context)]; the argument
    is the caller's object, kept by reference. *)
Definition child (w : World) (self : nat) (context : nat) : DelegatingLogger * World :=
  ({| parent := self; childContext := context |}, w).

(** [time(label)]: the returned closure keeps [this] and the reading. *)
Definition time (self : nat) (label : string) (now : Z) : nat * Timer :=
  (self, time label now).

(** The call of the closure that [time] returned. *)
Definition end_timer (w : World) (closure : nat * Timer) (now : Z) (timestamp : string)
    : Z * World :=
  ((now - timer_start (snd closure))%Z,
   with_logger w (fst closure) (fun l => snd (Timer_end l (snd closure) now timestamp))).

(** [timeAsync(label, fn)]: [fn] runs between the two clock readings,
    may do anything to the store, and settles; [end()] runs in the
    [finally] block, and the outcome of [fn] is the outcome of the call. *)
Definition timeAsync {T : Type} (w : World) (self : nat) (label : string)
    (fn : World -> Settled T * World) (start finish : Z) (timestamp : string)
    : Settled T * World :=
  let closure := time self label start in
  let '(outcome, w1) := fn w in
  (outcome, snd (end_timer w1 closure finish timestamp)).

End Base.

(** The methods of [DelegatingLogger]. *)
Module Delegating.

(** [mergeContext(context?)] *)
Definition mergeContext (w : World) (self : DelegatingLogger) (context : option LogContext)
    : LogContext :=
  match context with
  | Some c => spread (read_object w (childContext self)) c
  | None => read_object w (childContext self)
  end.

Definition debug (w : World) (self : DelegatingLogger) (message : string)
    (context : option LogContext) (timestamp : string) : World :=
  Base.debug w (parent self) message (Some (mergeContext w self context)) timestamp.

Definition info (w : World) (self : DelegatingLogger) (message : string)
    (context : option LogContext) (timestamp : string) : World :=
  Base.info w (parent self) message (Some (mergeContext w self context)) timestamp.

Definition warn (w : World) (self : DelegatingLogger) (message : string)
    (context : option LogContext) (timestamp : string) : World :=
  Base.warn w (parent self) message (Some (mergeContext w self context)) timestamp.

Definition error (w : World) (self : DelegatingLogger) (message : string) (err : JsValue)
    (context : option LogContext) (timestamp : string) : World :=
  Base.error w (parent self) message err (Some (mergeContext w self context)) timestamp.

(** [child(context)]: a new delegating logger on the same parent, with a
    fresh object holding the merged context. *)
Definition child (w : World) (self : DelegatingLogger) (context : LogContext)
    : DelegatingLogger * World :=
  let '(ref, w') := alloc w (spread (read_object w (childContext self)) context) in
  ({| parent := parent self; childContext := ref |}, w').

(** [setContext(context)]: [Object.assign(this.childContext, context)] *)
Definition setContext (w : World) (self : DelegatingLogger) (context : LogContext) : World :=
  {| loggers := loggers w;
     objects := alter (fun own => Object_assign own context) (childContext self) (objects w) |}.

Definition time (self : DelegatingLogger) (label : string) (now : Z) : nat * Timer :=
  Base.time (parent self) label now.

Definition timeAsync {T : Type} (w : World) (self : DelegatingLogger) (label : string)
    (fn : World -> Settled T * World) (start finish : Z) (timestamp : string)
    : Settled T * World :=
  Base.timeAsync w (parent self) label fn start finish timestamp.

End Delegating.

(** * The first release of the base logger

    The repository also holds the copy of [core/base-logger.ts] of release
    1.0.0, from before the changes LOG-ERR-001 (sanitizer patterns) and
    LOG-API-001 (delegating children). It differs from the file embedded
    above in two methods only, which are embedded here for comparison. *)

Module Release_1_0_0.

(** [key[=:]\s*\S+] *)
Definition KeyValue (key : regex) : regex :=
  Seq key (Seq (OneOf "=:") (Seq (Many Ws) (Plus NonWs))).

Definition sanitize_rules : list (regex * string) :=
  [ (re_bearer, "Bearer [REDACTED]");
    (KeyValue (lits "token"), "token=[REDACTED]");
    (KeyValue (lits "secret"), "secret=[REDACTED]");
    (KeyValue (lits "password"), "password=[REDACTED]");
    (KeyValue (Seq (lits "api") (Seq (Opt (OneOf "_-")) (lits "key"))), "api_key=[REDACTED]") ].

Definition sanitizeErrorMessage (message : string) : string :=
  fold_left apply_rule sanitize_rules message.

(** [child(context)]: a new instance of the same class on the same
    configuration, with a copy of the global context extended by
    [context], and with an output of its own. *)
Definition child (w : World) (self : nat) (context : LogContext) : nat * World :=
  match loggers w !! self with
  | Some this =>
      let id := fresh (dom (loggers w)) in
      (id,
       {| loggers :=
            <[id := {| config := config this;
                       globalContext := spread (globalContext this) context;
                       written := [] |}]> (loggers w);
          objects := objects w |})
  | None => (self, w)
  end.

End Release_1_0_0.

(** * The performance timer registry ([perf] of [presets/browser.ts])

    The two module-level maps and the warnings sent to [console.warn].
    Clock readings, durations and sums are numbers without rounding
    here, where the program has doubles; the properties below use the
    equations of the code and comparisons of stored values only, not the
    arithmetic of sums and averages. *)

Module perf.

Record MetricsData : Type := {
  count : Z;
  totalTime : Z;
  minTime : Z;
  maxTime : Z;
  avgTime : Q
}.

Record Registry : Type := {
  metricsStore : gmap string MetricsData;
  activeTimers : gmap string Z;
  warnings : list string
}.

Definition empty : Registry :=
  {| metricsStore := ∅; activeTimers := ∅; warnings := [] |}.

Definition console_warn (r : Registry) (text : string) : Registry :=
  {| metricsStore := metricsStore r;
     activeTimers := activeTimers r;
     warnings := warnings r ++ [text] |}.

(** The two warnings. *)
Definition already_active (label : string) : string :=
  "Timer " +:+ String dquote label +:+ String dquote
    " is already active. Call end() before starting again, " +:+
    "or use a unique label for concurrent operations.".

Definition not_started (label : string) : string :=
  "No timer started for label: " +:+ label.

(** [start(label)]; [now] is the reading of [performance.now()]. *)
Definition start (label : string) (now : Z) (r : Registry) : bool * Registry :=
  if bool_decide (is_Some (activeTimers r !! label)) then
    (false, console_warn r (already_active label))
  else
    (true,
     {| metricsStore := metricsStore r;
        activeTimers := <[label := now]> (activeTimers r);
        warnings := warnings r |}).

Definition record_duration (existing : option MetricsData) (duration : Z) : MetricsData :=
  match existing with
  | Some m =>
      let count' := (count m + 1)%Z in
      let total' := (totalTime m + duration)%Z in
      {| count := count';
         totalTime := total';
         minTime := Z.min (minTime m) duration;
         maxTime := Z.max (maxTime m) duration;
         avgTime := (inject_Z total' / inject_Z count')%Q |}
  | None =>
      {| count := 1;
         totalTime := duration;
         minTime := duration;
         maxTime := duration;
         avgTime := inject_Z duration |}
  end.

(** [end(label)] *)
Definition end_ (label : string) (now : Z) (r : Registry) : Z * Registry :=
  match activeTimers r !! label with
  | None => (0%Z, console_warn r (not_started label))
  | Some startTime =>
      let duration := (now - startTime)%Z in
      (duration,
       {| metricsStore :=
            <[label := record_duration (metricsStore r !! label) duration]> (metricsStore r);
          activeTimers := delete label (activeTimers r);
          warnings := warnings r |})
  end.

Definition getMetrics (label : string) (r : Registry) : option MetricsData :=
  metricsStore r !! label.

Definition clearMetrics (r : Registry) : Registry :=
  {| metricsStore := ∅; activeTimers := ∅; warnings := warnings r |}.

(** How a synchronous call of the wrapped function ends. *)
Inductive Completion (T : Type) : Type :=
| Returned (value : T)
| Thrown (reason : JsValue).
Arguments Returned {T} value.
Arguments Thrown {T} reason.

(** [measureSync(label, fn)]: the result of [start] is not looked at;
    [fn] runs on the registry between the two clock readings and [end]
    runs in the [finally] block. *)
Definition measureSync {T : Type} (label : string) (fn : Registry -> Completion T * Registry)
    (started finished : Z) (r : Registry) : Completion T * Registry :=
  let r1 := snd (start label started r) in
  let '(completion, r2) := fn r1 in
  (completion, snd (end_ label finished r2)).

(** [measure(label, fn)], the same around an awaited promise. *)
Definition measure {T : Type} (label : string) (fn : Registry -> Settled T * Registry)
    (started finished : Z) (r : Registry) : Settled T * Registry :=
  let r1 := snd (start label started r) in
  let '(outcome, r2) := fn r1 in
  (outcome, snd (end_ label finished r2)).

End perf.

(** * Constants ([constants.ts]) *)

Definition CORE_REDACT_FIELDS : list string :=
  ["password"; "token"; "secret"; "authorization"; "cookie";
   "api_key"; "apiKey"; "access_token"; "refresh_token"].

Definition WORKER_SPECIFIC_REDACT_FIELDS : list string :=
  ["jwt_secret"; "bot_api_secret"; "bot_signing_secret"; "discord_client_secret"].

Definition WORKER_REDACT_FIELDS : list string :=
  (CORE_REDACT_FIELDS ++ WORKER_SPECIFIC_REDACT_FIELDS)%list.

(** * Adapters ([adapters/]): the constructors

    Each adapter spreads the given options over its own defaults and hands
    the result to the constructor of [BaseLogger]. *)

(** [{...defaults, ...given}] on partial configurations *)
Definition overlay (defaults given : PartialConfig) : PartialConfig :=
  {| opt_level := match opt_level given with Some v => Some v | None => opt_level defaults end;
     opt_format := match opt_format given with Some v => Some v | None => opt_format defaults end;
     opt_timestamps :=
       match opt_timestamps given with Some v => Some v | None => opt_timestamps defaults end;
     opt_prefix := match opt_prefix given with Some v => Some v | None => opt_prefix defaults end;
     opt_sanitizeErrors :=
       match opt_sanitizeErrors given with
       | Some v => Some v
       | None => opt_sanitizeErrors defaults
       end;
     opt_redactFields :=
       match opt_redactFields given with
       | Some v => Some v
       | None => opt_redactFields defaults
       end |}.

Definition new_ConsoleAdapter (c : PartialConfig) : BaseLogger :=
  new_BaseLogger
    (overlay {| opt_level := None; opt_format := Some pretty_format; opt_timestamps := None;
                opt_prefix := None; opt_sanitizeErrors := None; opt_redactFields := None |} c).

Definition new_JsonAdapter (c : PartialConfig) : BaseLogger :=
  new_BaseLogger
    (overlay {| opt_level := None; opt_format := Some json; opt_timestamps := Some true;
                opt_prefix := None; opt_sanitizeErrors := Some true;
                opt_redactFields := None |} c).

Definition new_NoopAdapter (c : PartialConfig) : BaseLogger :=
  new_BaseLogger
    (overlay {| opt_level := Some (VStr "error"); opt_format := Some json;
                opt_timestamps := Some false; opt_prefix := None;
                opt_sanitizeErrors := Some false; opt_redactFields := None |} c).

(** * The worker preset ([presets/worker.ts]) *)

Module worker.

(** [WorkerLoggerOptions]; an absent [level] is [VUndefined]. *)
Record WorkerLoggerOptions : Type := {
  service : string;
  environment : string;
  version : option string;
  level : JsValue
}.

(** [v ?? fallback] *)
Definition nullish_or (v fallback : JsValue) : JsValue :=
  match v with
  | VUndefined | VNull => fallback
  | _ => v
  end.

(** [...(value && { name: value })] for an optional string: nothing for an
    absent or empty value. *)
Definition optional_property (name : string) (value : option string) : LogContext :=
  match value with
  | Some v => if String.eqb v "" then ∅ else {[ name := VStr v ]}
  | None => ∅
  end.

(** [createWorkerLogger(options, requestId?)] *)
Definition createWorkerLogger (options : WorkerLoggerOptions) (requestId : option string)
    : BaseLogger :=
  let config :=
    {| opt_level :=
         Some (nullish_or (level options)
                 (if String.eqb (environment options) "production"
                  then VStr "info" else VStr "debug"));
       opt_format := Some json;
       opt_timestamps := Some true;
       opt_prefix := None;
       opt_sanitizeErrors := Some true;
       opt_redactFields := Some WORKER_REDACT_FIELDS |} in
  setContext (new_JsonAdapter config)
    (spread
       (spread {[ "service" := VStr (service options);
                  "environment" := VStr (environment options) ]}
               (optional_property "version" (version options)))
       (optional_property "requestId" requestId)).

(** [createRequestLogger(env, requestId)]; [SERVICE_NAME ?? ...] replaces
    an absent name only. *)
Definition createRequestLogger (ENVIRONMENT : string) (API_VERSION SERVICE_NAME : option string)
    (requestId : string) : BaseLogger :=
  createWorkerLogger
    {| service := default "xivdyetools-worker" SERVICE_NAME;
       environment := ENVIRONMENT;
       version := API_VERSION;
       level := VUndefined |}
    (Some requestId).

(** [a || b] on the result of [headers.get], a string or null *)
Definition or_else (a : option string) (b : string) : string :=
  match a with
  | Some v => if String.eqb v "" then b else v
  | None => b
  end.

(** [getRequestId(request)]; [headers] gives the value of a header by its
    lower-case name and [uuid] is the result of [crypto.randomUUID()]. *)
Definition getRequestId (headers : gmap string string) (uuid : string) : string :=
  or_else (headers !! "x-request-id") (or_else (headers !! "cf-ray") uuid).

End worker.

(** * The library preset ([presets/library.ts]) *)

Module library.

Definition NoOpLogger : BaseLogger := new_NoopAdapter no_options.

Definition ConsoleLogger : BaseLogger :=
  new_ConsoleAdapter
    {| opt_level := Some (VStr "debug"); opt_format := Some pretty_format;
       opt_timestamps := Some true; opt_prefix := Some "xivdyetools";
       opt_sanitizeErrors := None; opt_redactFields := None |}.

(** [createLibraryLogger(prefix, config)] *)
Definition createLibraryLogger (prefix : string) (config : PartialConfig) : BaseLogger :=
  new_ConsoleAdapter
    (overlay {| opt_level := Some (VStr "debug"); opt_format := Some pretty_format;
                opt_timestamps := Some true; opt_prefix := Some prefix;
                opt_sanitizeErrors := None; opt_redactFields := None |} config).

End library.

(** * The browser preset ([presets/browser.ts]): the logger *)

Module browser.

(** What [defaultIsDev] reads: [import.meta.env.DEV], [import.meta.env.MODE]
    and [process.env.NODE_ENV], each possibly undefined. *)
Record Environment : Type := {
  DEV : option bool;
  MODE : option string;
  NODE_ENV : option string
}.

Definition defaultIsDev (env : Environment) : bool :=
  match DEV env with
  | Some dev => dev
  | None =>
      match MODE env with
      | Some mode => String.eqb mode "development"
      | None =>
          match NODE_ENV env with
          | Some node_env =>
              if String.eqb node_env "" then false else String.eqb node_env "development"
          | None => false
          end
      end
  end.

(** [BrowserLoggerOptions]: [isDev] holds the result of the given
    detection function, [errorTracker] whether a tracker is given. *)
Record BrowserLoggerOptions : Type := {
  isDev : option bool;
  errorTracker : bool;
  prefix : option string
}.

(** The calls an [ErrorTracker] receives from the logger. *)
Inductive TrackerCall : Type :=
| captureException (error : JsValue) (context : option LogContext)
| captureMessage (message : string) (level : string).

(** The logger that [createBrowserLogger] returns: the console adapter,
    whether its [error] and [warn] have been wrapped, and the calls the
    tracker has received. *)
Record BrowserLogger : Type := {
  adapter : BaseLogger;
  wrapped : bool;
  tracked : list TrackerCall
}.

(** [createBrowserLogger(options)] *)
Definition createBrowserLogger (options : BrowserLoggerOptions) (env : Environment)
    : BrowserLogger :=
  let isDevMode :=
    match isDev options with
    | Some detected => detected
    | None => defaultIsDev env
    end in
  let config :=
    {| opt_level := Some (if isDevMode then VStr "debug" else VStr "warn");
       opt_format := Some pretty_format;
       opt_timestamps := Some true;
       opt_prefix := Some (default "xivdyetools" (prefix options));
       opt_sanitizeErrors := Some (negb isDevMode);
       opt_redactFields := None |} in
  {| adapter := new_ConsoleAdapter config;
     wrapped := errorTracker options && negb isDevMode;
     tracked := [] |}.

Definition track (self : BrowserLogger) (adapter' : BaseLogger) (call : TrackerCall)
    : BrowserLogger :=
  {| adapter := adapter';
     wrapped := wrapped self;
     tracked := if wrapped self then (tracked self ++ [call])%list else tracked self |}.

(** [logger.error], wrapped or not *)
Definition error (self : BrowserLogger) (message : string) (err : JsValue)
    (context : option LogContext) (timestamp : string) : BrowserLogger :=
  track self (error (adapter self) message err context timestamp)
    (if instanceof_Error err then captureException err context
     else if truthy err then captureMessage (message +:+ ": " +:+ js_String err) "error"
     else captureMessage message "error").

(** [logger.warn], wrapped or not *)
Definition warn (self : BrowserLogger) (message : string) (context : option LogContext)
    (timestamp : string) : BrowserLogger :=
  track self (warn (adapter self) message context timestamp)
    (captureMessage message "warning").

Definition info (self : BrowserLogger) (message : string) (context : option LogContext)
    (timestamp : string) : BrowserLogger :=
  {| adapter := info (adapter self) message context timestamp;
     wrapped := wrapped self; tracked := tracked self |}.

Definition debug (self : BrowserLogger) (message : string) (context : option LogContext)
    (timestamp : string) : BrowserLogger :=
  {| adapter := debug (adapter self) message context timestamp;
     wrapped := wrapped self; tracked := tracked self |}.

Definition setContext (self : BrowserLogger) (context : LogContext) : BrowserLogger :=
  {| adapter := setContext (adapter self) context;
     wrapped := wrapped self; tracked := tracked self |}.

End browser.

(** * Vocabulary of the statements *)

(** The rank of a severity in the order debug < info < warn < error. *)
Definition rank (l : LogLevel) : Z :=
  match l with
  | debug_level => 0
  | info_level => 1
  | warn_level => 2
  | error_level => 3
  end.

(** The log call at severity [S]: [debug], [info] and [warn] take no error
    argument. *)
Definition log_call (S : LogLevel) (self : BaseLogger) (message : string) (err : JsValue)
    (context : option LogContext) (timestamp : string) : BaseLogger :=
  match S with
  | debug_level => debug self message context timestamp
  | info_level => info self message context timestamp
  | warn_level => warn self message context timestamp
  | error_level => error self message err context timestamp
  end.

(** The error value that reaches [createEntry] from the call at severity [S]. *)
Definition error_argument (S : LogLevel) (err : JsValue) : JsValue :=
  match S with
  | error_level => err
  | _ => VUndefined
  end.

(** The error field of an entry for a value that is not an [Error]. *)
Definition unknown_error (e : JsValue) : ErrorInfo :=
  {| err_name := "Unknown"; err_message := js_String e; err_code := None; err_stack := None |}.

(** Whether the loop body rewrites property [k] of [m] when it reaches
    the field name [k]. *)
Definition redacts (m : LogContext) (k : string) : bool :=
  has_property m k &&
  negb (bool_decide (k = "__proto__") && negb (bool_decide (is_Some (m !! k)))).

(** The context field of an entry built from a merged context: the
    redacted merge, absent when it has no property. *)
Definition emitted_context (self : BaseLogger) (merged : LogContext) : option LogContext :=
  let redacted := redactSensitiveFields self merged in
  if bool_decide (redacted = ∅) then None else Some redacted.

(** The log call at severity [S] on a logger of the store, and on a
    delegating child. *)
Definition parent_call (S : LogLevel) (w : World) (self : nat) (message : string)
    (err : JsValue) (context : option LogContext) (timestamp : string) : World :=
  match S with
  | debug_level => Base.debug w self message context timestamp
  | info_level => Base.info w self message context timestamp
  | warn_level => Base.warn w self message context timestamp
  | error_level => Base.error w self message err context timestamp
  end.

Definition child_call (S : LogLevel) (w : World) (self : DelegatingLogger) (message : string)
    (err : JsValue) (context : option LogContext) (timestamp : string) : World :=
  match S with
  | debug_level => Delegating.debug w self message context timestamp
  | info_level => Delegating.info w self message context timestamp
  | warn_level => Delegating.warn w self message context timestamp
  | error_level => Delegating.error w self message err context timestamp
  end.

(** The entry that ending the timer of [label] emits. *)
Definition timing_entry (self : BaseLogger) (label : string) (start finish : Z)
    (timestamp : string) : LogEntry :=
  createEntry self debug_level
    (label +:+ ": " +:+ toFixed2 (finish - start) +:+ "ms")
    (Some {[ "duration" := VNum (finish - start); "label" := VStr label ]})
    VUndefined timestamp.

(** [haystack.includes(needle)] *)
Fixpoint includes (needle haystack : string) : bool :=
  String.prefix needle haystack ||
  match haystack with
  | EmptyString => false
  | String _ rest => includes needle rest
  end.



(** The calls of the [Logger] interface and [setContext], each log call
    with the timestamp it reads, and a sequence of them on one logger. *)
Inductive Call : Type :=
| call_log (severity : LogLevel) (message : string) (err : JsValue)
    (context : option LogContext) (timestamp : string)
| call_setContext (context : LogContext).

Definition perform (self : BaseLogger) (c : Call) : BaseLogger :=
  match c with
  | call_log severity message err context timestamp =>
      log_call severity self message err context timestamp
  | call_setContext context => setContext self context
  end.

Definition perform_all (self : BaseLogger) (calls : list Call) : BaseLogger :=
  fold_left perform calls self.

(** The same calls on a browser logger. *)
Definition browser_perform (self : browser.BrowserLogger) (c : Call) : browser.BrowserLogger :=
  match c with
  | call_log debug_level message _ context timestamp =>
      browser.debug self message context timestamp
  | call_log info_level message _ context timestamp =>
      browser.info self message context timestamp
  | call_log warn_level message _ context timestamp =>
      browser.warn self message context timestamp
  | call_log error_level message err context timestamp =>
      browser.error self message err context timestamp
  | call_setContext context => browser.setContext self context
  end.

(** A record whose bounds are in order: it has at least one sample and
    its minimum is not above its maximum. Only comparisons enter, which
    do not depend on how the sums are rounded. *)
Definition ordered (m : perf.MetricsData) : Prop :=
  (1 <= perf.count m)%Z /\ (perf.minTime m <= perf.maxTime m)%Z.

Definition all_ordered (r : perf.Registry) : Prop :=
  forall label m, perf.metricsStore r !! label = Some m -> ordered m.

(** The context that a call brings: the call-site context of a log call,
    the mapping of a [setContext]. *)
Definition call_context (c : Call) : LogContext :=
  match c with
  | call_log _ _ _ context _ => default ∅ context
  | call_setContext context => context
  end.

(** The beginning of the occurrence, up to the token. *)
Definition occurrence_head : string := "authorization=Bearer ".

(** Every match of [r] that starts in [front] ends in [front] when the
    occurrence follows: at each position of [front] the pattern matches,
    with the head of the occurrence and any text behind [front], exactly
    as it does when the message ends with [front]. *)
Definition ends_in_front (r : regex) (front : list ascii) : Prop :=
  forall before t following,
    front = (before ++ t)%list -> t <> [] ->
    match_length true r (t ++ list_ascii_of_string occurrence_head ++ following)%list
    = match_length true r t.

(** The same for rules applied one after the other, each to the front as
    the rules before it have left it: no match that starts in front of
    the occurrence reaches into the occurrence. *)
Fixpoint sanitized_apart (rules : list (regex * string)) (front : string) : Prop :=
  match rules with
  | [] => True
  | rule :: rules' =>
      ends_in_front (fst rule) (list_ascii_of_string front) /\
      sanitized_apart rules' (apply_rule front rule)
  end.

(** Whether [word] occurs in [s], letters compared as the [i] flag does. *)
Fixpoint starts_with_ci (word : string) (s : list ascii) : bool :=
  match word with
  | EmptyString => true
  | String c word' =>
      match s with
      | x :: s' => char_eq true c x && starts_with_ci word' s'
      | [] => false
      end
  end.

Fixpoint mentions_ci (word : string) (s : list ascii) : bool :=
  starts_with_ci word s ||
  match s with
  | [] => false
  | _ :: s' => mentions_ci word s'
  end.

(** [=] or [:] *)
Definition is_delimiter (c : ascii) : bool :=
  Ascii.eqb c "="%char || Ascii.eqb c ":"%char.

(** A message without delimiter and without the word [Bearer]. *)
Definition quiet (s : list ascii) : Prop :=
  existsb is_delimiter s = false /\ mentions_ci "Bearer" s = false.

(** A sequence of calls on a browser logger. *)
Definition browser_perform_all (self : browser.BrowserLogger) (calls : list Call)
    : browser.BrowserLogger :=
  fold_left browser_perform calls self.


(** [isDev()] of [createBrowserLogger]: the given detection, else the
    default one. *)
Definition isDevMode (options : browser.BrowserLoggerOptions) (env : browser.Environment)
    : bool :=
  match browser.isDev options with
  | Some detected => detected
  | None => browser.defaultIsDev env
  end.

(** * Properties *)

(** ** Level filter *)

Lemma indexOf_level (l : LogLevel) :
  indexOf LOG_LEVELS (VStr (level_name l)) = rank l.
Proof. destruct l; reflexivity. Qed.

Lemma indexOf_unknown (v : JsValue) :
  (forall M, v <> VStr (level_name M)) -> indexOf LOG_LEVELS v = (-1)%Z.
Proof.
  intros Hv.
  assert (Hs : forall M, strict_eq_level (VStr (level_name M)) v = false).
  { intros M. destruct v as [| | | | | s | |]; try reflexivity.
    unfold strict_eq_level, strict_eq_string.
    destruct (String.eqb_spec (level_name M) s) as [Heq|]; [|reflexivity].
    exfalso. apply (Hv M). rewrite Heq. reflexivity. }
  pose proof (Hs debug_level) as H0. pose proof (Hs info_level) as H1.
  pose proof (Hs warn_level) as H2. pose proof (Hs error_level) as H3.
  unfold indexOf, LOG_LEVELS. cbn [indexOf_from level_name] in *.
  rewrite H0, H1, H2, H3. reflexivity.
Qed.

Lemma shouldLog_rank (self : BaseLogger) (M S : LogLevel) :
  cfg_level (config self) = VStr (level_name M) ->
  shouldLog self S = (rank S >=? rank M)%Z.
Proof.
  intros HM. unfold shouldLog. rewrite HM, !indexOf_level. reflexivity.
Qed.

Lemma log_call_unfold (S : LogLevel) (self : BaseLogger) (message : string) (err : JsValue)
    (context : option LogContext) (timestamp : string) :
  log_call S self message err context timestamp =
  if shouldLog self S
  then write self (createEntry self S message context (error_argument S err) timestamp)
  else self.
Proof. destruct S; reflexivity. Qed.

Lemma app_one_neq {A : Type} (l : list A) (x : A) : (l ++ [x])%list <> l.
Proof.
  intros H. apply (f_equal (@length A)) in H. rewrite length_app in H. simpl in H. lia.
Qed.

(** C1. With a configured minimum level [M] among the four severities, the
    log call at severity [S] hands its entry to [write] if and only if
    [rank S >= rank M]; otherwise nothing is written. *)
Theorem level_filter_reaches_transport_iff
    (self : BaseLogger) (M S : LogLevel) (message : string) (err : JsValue)
    (context : option LogContext) (timestamp : string) :
  cfg_level (config self) = VStr (level_name M) ->
  let after := log_call S self message err context timestamp in
  let entry := createEntry self S message context (error_argument S err) timestamp in
  (written after = (written self ++ [entry])%list <-> (rank S >= rank M)%Z) /\
  (written after = written self <-> (rank S < rank M)%Z) /\
  config after = config self /\
  globalContext after = globalContext self.
Proof.
  intros HM after entry. subst after entry.
  rewrite log_call_unfold, (shouldLog_rank self M S HM).
  destruct (Z.geb_spec (rank S) (rank M)) as [Hge|Hlt]; simpl.
  - repeat split; auto; try lia.
    intros H. exfalso. exact (app_one_neq _ _ H).
  - repeat split; auto; try lia.
    intros H. exfalso. symmetry in H. exact (app_one_neq _ _ H).
Qed.

Lemma level_filter_reaches_transport_iff_witness :
  let self := new_BaseLogger
    {| opt_level := Some (VStr "warn"); opt_format := None; opt_timestamps := None;
       opt_prefix := None; opt_sanitizeErrors := None; opt_redactFields := None |} in
  (written (log_call error_level self "y" VUndefined None "t") =
     (written self ++ [createEntry self error_level "y" None VUndefined "t"])%list
   <-> (rank error_level >= rank warn_level)%Z).
Proof.
  intros self.
  exact (proj1 (level_filter_reaches_transport_iff self warn_level error_level
                  "y" VUndefined None "t" eq_refl)).
Defined.

(** C10. When the configured level is none of the four severities,
    [indexOf] yields -1 for it and every log call reaches the transport. *)
Theorem unknown_level_always_logs
    (self : BaseLogger) (S : LogLevel) (message : string) (err : JsValue)
    (context : option LogContext) (timestamp : string) :
  (forall M, cfg_level (config self) <> VStr (level_name M)) ->
  indexOf LOG_LEVELS (cfg_level (config self)) = (-1)%Z /\
  shouldLog self S = true /\
  written (log_call S self message err context timestamp) =
    (written self ++ [createEntry self S message context (error_argument S err) timestamp])%list.
Proof.
  intros Hunknown.
  pose proof (indexOf_unknown _ Hunknown) as Hidx.
  assert (Hlog : shouldLog self S = true).
  { unfold shouldLog. rewrite Hidx, indexOf_level. destruct S; reflexivity. }
  repeat split; auto.
  rewrite log_call_unfold, Hlog. reflexivity.
Qed.

Lemma unknown_level_always_logs_witness :
  let self := new_BaseLogger
    {| opt_level := Some (VStr "verbose"); opt_format := None; opt_timestamps := None;
       opt_prefix := None; opt_sanitizeErrors := None; opt_redactFields := None |} in
  shouldLog self debug_level = true.
Proof.
  intros self.
  refine (proj1 (proj2 (unknown_level_always_logs self debug_level "x" VUndefined None "t" _))).
  intros M. destruct M; simpl; discriminate.
Defined.

(** ** Error formatting *)

Lemma formatError_non_Error (self : BaseLogger) (e : JsValue) :
  instanceof_Error e = false -> formatError self e = unknown_error e.
Proof. destruct e; intros H; try reflexivity. discriminate H. Qed.

(** [formatError] itself treats every value that is not an [Error] alike,
    the falsy ones included. *)
Lemma formatError_uniform (self : BaseLogger) :
  formatError self (VStr "string error") = unknown_error (VStr "string error") /\
  err_message (formatError self VNull) = "null" /\
  err_message (formatError self VUndefined) = "undefined" /\
  err_message (formatError self (VObject None)) = "[object Object]".
Proof. repeat split. Qed.

(** C9, as stated, fails: [error(message, null)] passes the level filter
    of a default logger, and the emitted entry has no error field, because
    [createEntry] formats the error only under [if (error)]. *)
Lemma error_call_with_null_has_no_error_field :
  let self := new_BaseLogger no_options in
  shouldLog self error_level = true /\
  instanceof_Error VNull = false /\
  map entry_error (written (error self "Failed" VNull None "2024-01-15T12:00:00.000Z"))
    = [None] /\
  map entry_error (written (error self "Failed" VNull None "2024-01-15T12:00:00.000Z"))
    <> [Some (unknown_error VNull)].
Proof. repeat split. discriminate. Qed.

(** C9, amended. An [error] call that passes the level filter with a value
    that is not an [Error] emits one entry; its error field is
    [{name: "Unknown", message: String(e)}] when the value is truthy, and
    is absent when the value is falsy (undefined, null, the empty string,
    0, NaN, false). *)
Theorem error_call_formats_non_Error
    (self : BaseLogger) (message : string) (e : JsValue)
    (context : option LogContext) (timestamp : string) :
  shouldLog self error_level = true ->
  instanceof_Error e = false ->
  exists entry,
    written (error self message e context timestamp) = (written self ++ [entry])%list /\
    entry_level entry = error_level /\
    entry_error entry = if truthy e then Some (unknown_error e) else None.
Proof.
  intros Hlog Hne. unfold error. rewrite Hlog.
  eexists. split; [reflexivity|]. split; [reflexivity|].
  simpl. destruct (truthy e); [|reflexivity].
  rewrite (formatError_non_Error self e Hne). reflexivity.
Qed.

Lemma error_call_formats_non_Error_witness :
  exists entry,
    written (error (new_BaseLogger no_options) "Failed" (VStr "string error") None "t")
      = (written (new_BaseLogger no_options) ++ [entry])%list /\
    entry_level entry = error_level /\
    entry_error entry = Some (unknown_error (VStr "string error")).
Proof.
  exact (error_call_formats_non_Error (new_BaseLogger no_options) "Failed"
           (VStr "string error") None "t" eq_refl eq_refl).
Defined.

(** ** Field redaction *)

Lemma redact_field_lookup (m : LogContext) (f k : string) :
  redact_field m f !! k =
  if bool_decide (f = k) && redacts m k then Some (VStr REDACTED) else m !! k.
Proof.
  unfold redact_field, redacts, set_property.
  destruct (decide (f = k)) as [->|Hne].
  - rewrite (bool_decide_true (k = k)) by reflexivity. simpl.
    destruct (has_property m k); simpl; [|reflexivity].
    destruct (bool_decide (k = "__proto__") && negb (bool_decide (is_Some (m !! k))));
      simpl; [reflexivity|].
    apply lookup_insert_eq.
  - rewrite (bool_decide_false (f = k)) by assumption. simpl.
    destruct (has_property m f); [|reflexivity].
    destruct (bool_decide (f = "__proto__") && negb (bool_decide (is_Some (m !! f))));
      [reflexivity|].
    apply lookup_insert_ne. assumption.
Qed.

Lemma redact_field_redacts (m : LogContext) (f k : string) :
  redacts (redact_field m f) k = redacts m k.
Proof.
  unfold redacts at 1. unfold has_property. rewrite redact_field_lookup.
  destruct (bool_decide (f = k) && redacts m k) eqn:E.
  - apply andb_prop in E as [_ E]. rewrite E.
    rewrite (bool_decide_true (is_Some (Some (VStr REDACTED)))) by eauto.
    simpl. rewrite andb_false_r. reflexivity.
  - reflexivity.
Qed.

(** What [redactSensitiveFields] does to each property. *)
Lemma redact_fields_lookup (fields : list string) (m : LogContext) (k : string) :
  fold_left redact_field fields m !! k =
  if bool_decide (k ∈ fields) && redacts m k then Some (VStr REDACTED) else m !! k.
Proof.
  revert m. induction fields as [|f fs IH]; intros m; cbn [fold_left].
  - rewrite bool_decide_false by apply not_elem_of_nil. reflexivity.
  - rewrite IH, redact_field_redacts, redact_field_lookup.
    destruct (decide (f = k)) as [->|Hne].
    + rewrite (bool_decide_true (k = k)) by reflexivity.
      rewrite (bool_decide_true (k ∈ k :: fs)) by (apply elem_of_cons; auto).
      simpl. destruct (redacts m k); [|rewrite andb_false_r]; simpl.
      * destruct (bool_decide (k ∈ fs)); reflexivity.
      * reflexivity.
    + rewrite (bool_decide_false (f = k)) by assumption. simpl.
      rewrite (bool_decide_ext (k ∈ f :: fs) (k ∈ fs)); [reflexivity|].
      rewrite elem_of_cons. split; [intros [->|H]; [contradiction|exact H]|auto].
Qed.

Lemma redact_fields_untouched (fields : list string) (m : LogContext) :
  (forall f, f ∈ fields -> has_property m f = false) ->
  fold_left redact_field fields m = m.
Proof.
  intros H. apply map_eq. intros k. rewrite redact_fields_lookup.
  destruct (bool_decide (k ∈ fields)) eqn:E; [|reflexivity].
  apply bool_decide_eq_true in E. unfold redacts. rewrite (H k E). reflexivity.
Qed.

Lemma redact_fields_absent (fields : list string) (m : LogContext) (k : string) :
  has_property m k = false -> fold_left redact_field fields m !! k = None.
Proof.
  intros H. rewrite redact_fields_lookup. unfold redacts. rewrite H, andb_false_r.
  unfold has_property in H. apply orb_false_elim in H as [H _].
  apply bool_decide_eq_false in H.
  destruct (m !! k) eqn:E; [|reflexivity]. exfalso. apply H. eauto.
Qed.

(** ** Context composition *)

Lemma createEntry_context_given (self : BaseLogger) (S : LogLevel) (message : string)
    (c : LogContext) (err : JsValue) (timestamp : string) :
  entry_context (createEntry self S message (Some c) err timestamp)
  = emitted_context self (c ∪ globalContext self).
Proof. reflexivity. Qed.

Lemma createEntry_context_omitted (self : BaseLogger) (S : LogLevel) (message : string)
    (err : JsValue) (timestamp : string) :
  entry_context (createEntry self S message None err timestamp)
  = if bool_decide (globalContext self = ∅) then None
    else emitted_context self (globalContext self).
Proof.
  unfold createEntry, mergeContext, emitted_context, spread. simpl.
  destruct (bool_decide (globalContext self = ∅)); [reflexivity|].
  rewrite (left_id_L ∅ (∪) (globalContext self)). reflexivity.
Qed.

Lemma parent_call_unfold (S : LogLevel) (w : World) (self : nat) (message : string)
    (err : JsValue) (context : option LogContext) (timestamp : string) :
  parent_call S w self message err context timestamp
  = with_logger w self (fun l => log_call S l message err context timestamp).
Proof. destruct S; reflexivity. Qed.

(** A child's log call is the parent's log call on the merged context. *)
Lemma child_call_delegates (S : LogLevel) (w : World) (d : DelegatingLogger)
    (message : string) (err : JsValue) (context : option LogContext) (timestamp : string) :
  child_call S w d message err context timestamp
  = parent_call S w (parent d) message err
      (Some (Delegating.mergeContext w d context)) timestamp.
Proof. destruct S; reflexivity. Qed.

Lemma with_logger_lookup (w : World) (id : nat) (f : BaseLogger -> BaseLogger) :
  loggers (with_logger w id f) !! id = f <$> loggers w !! id.
Proof. apply lookup_alter_eq. Qed.

Lemma with_logger_lookup_ne (w : World) (id id' : nat) (f : BaseLogger -> BaseLogger) :
  id <> id' -> loggers (with_logger w id f) !! id' = loggers w !! id'.
Proof. intros H. apply lookup_alter_ne. assumption. Qed.

Lemma with_logger_dom (w : World) (id : nat) (f : BaseLogger -> BaseLogger) :
  dom (loggers (with_logger w id f)) = dom (loggers w).
Proof. apply dom_alter_L. Qed.

Lemma mergeContext_layers (w : World) (d : DelegatingLogger) (C : LogContext)
    (L : option LogContext) :
  objects w !! childContext d = Some C ->
  Delegating.mergeContext w d L = default ∅ L ∪ C.
Proof.
  intros HC. unfold Delegating.mergeContext, read_object, spread. rewrite HC.
  destruct L as [c|]; simpl; [reflexivity|].
  rewrite (left_id_L ∅ (∪) C). reflexivity.
Qed.

(** The entry a child's call emits, and where it goes. *)
Lemma child_call_entry (S : LogLevel) (w : World) (d : DelegatingLogger)
    (P : BaseLogger) (C : LogContext) (message : string) (err : JsValue)
    (L : option LogContext) (timestamp : string) :
  loggers w !! parent d = Some P ->
  objects w !! childContext d = Some C ->
  loggers (child_call S w d message err L timestamp) !! parent d
  = Some (log_call S P message err (Some (default ∅ L ∪ C)) timestamp).
Proof.
  intros HP HC.
  rewrite child_call_delegates, parent_call_unfold, with_logger_lookup, HP.
  rewrite (mergeContext_layers w d C L HC). reflexivity.
Qed.

Lemma precedence_lookup (G C L : LogContext) (k : string) :
  (L ∪ C ∪ G) !! k =
  match L !! k with
  | Some v => Some v
  | None => match C !! k with
            | Some v => Some v
            | None => G !! k
            end
  end.
Proof.
  rewrite !lookup_union.
  destruct (L !! k), (C !! k), (G !! k); reflexivity.
Qed.

Lemma emitted_context_unredacted (self : BaseLogger) (m : LogContext) :
  (forall f, f ∈ fieldsToRedact self -> has_property m f = false) ->
  m <> ∅ ->
  emitted_context self m = Some m.
Proof.
  intros Hf Hne. unfold emitted_context, redactSensitiveFields.
  rewrite (redact_fields_untouched _ _ Hf).
  rewrite bool_decide_false by assumption. reflexivity.
Qed.

(** The scenario of the specification: parent context [{a:1}], child
    context [{b:2}], call-site context [{c:3}]. *)
Example child_context_scenario :
  let P := setContext (new_BaseLogger no_options) {[ "a" := VNum 1 ]} in
  let w := {| loggers := {[ 0%nat := P ]}; objects := {[ 0%nat := {[ "b" := VNum 2 ]} ]} |} in
  let d := fst (Base.child w 0 0) in
  (map entry_context ∘ written) <$>
    loggers (Delegating.info w d "m" (Some {[ "c" := VNum 3 ]}) "t") !! 0%nat
  = Some [Some {[ "a" := VNum 1; "b" := VNum 2; "c" := VNum 3 ]}].
Proof. vm_compute. reflexivity. Qed.

(** C4, as stated, fails: the child context [{token: "abc"}] reaches the
    entry as [{token: "[REDACTED]"}], which is not the union of the three
    layers. *)
Lemma child_entry_context_is_not_the_plain_union :
  let P := new_BaseLogger no_options in
  let C : LogContext := {[ "token" := VStr "abc" ]} in
  let w := {| loggers := {[ 0%nat := P ]}; objects := {[ 0%nat := C ]} |} in
  let d := fst (Base.child w 0 0) in
  (map entry_context ∘ written) <$> loggers (Delegating.info w d "m" None "t") !! 0%nat
    = Some [Some {[ "token" := VStr "[REDACTED]" ]}] /\
  (map entry_context ∘ written) <$> loggers (Delegating.info w d "m" None "t") !! 0%nat
    <> Some [Some (∅ ∪ C ∪ globalContext P)].
Proof.
  split.
  - vm_compute. reflexivity.
  - intros H.
    apply (f_equal (fun x => match x with
                             | Some [Some m] => m !! "token"
                             | _ => None
                             end)) in H.
    vm_compute in H. discriminate H.
Qed.

(** C4, amended. When the parent's level filter lets the call through, a
    child's log call appends one entry to the parent's output, and its
    context is the field-redacted union of the call-site, child and parent
    layers, in which the call-site value wins over the child's and the
    child's over the parent's; the field is absent when that redacted
    union has no property, and it is the plain union when no redact field
    is a property of it. The same holds for a child's child, with the
    grandchild layer between the call site and the child layer. *)
Theorem child_entry_context_is_redacted_union
    (w : World) (d : DelegatingLogger) (P : BaseLogger) (C C2 : LogContext)
    (S : LogLevel) (message : string) (err : JsValue) (L : option LogContext)
    (timestamp : string) :
  loggers w !! parent d = Some P ->
  objects w !! childContext d = Some C ->
  shouldLog P S = true ->
  let G := globalContext P in
  let Lc := default ∅ L in
  (exists entry,
     written <$> loggers (child_call S w d message err L timestamp) !! parent d
       = Some (written P ++ [entry])%list /\
     entry_context entry = emitted_context P (Lc ∪ C ∪ G)) /\
  (exists entry,
     let '(d2, w2) := Delegating.child w d C2 in
     written <$> loggers (child_call S w2 d2 message err L timestamp) !! parent d2
       = Some (written P ++ [entry])%list /\
     entry_context entry = emitted_context P (Lc ∪ (C2 ∪ C) ∪ G)) /\
  (forall k,
     (Lc ∪ C ∪ G) !! k =
     match Lc !! k with
     | Some v => Some v
     | None => match C !! k with
               | Some v => Some v
               | None => G !! k
               end
     end) /\
  (forall k,
     redactSensitiveFields P (Lc ∪ C ∪ G) !! k =
     if bool_decide (k ∈ fieldsToRedact P) && redacts (Lc ∪ C ∪ G) k
     then Some (VStr REDACTED) else (Lc ∪ C ∪ G) !! k) /\
  ((forall f, f ∈ fieldsToRedact P -> has_property (Lc ∪ C ∪ G) f = false) ->
   Lc ∪ C ∪ G <> ∅ ->
   emitted_context P (Lc ∪ C ∪ G) = Some (Lc ∪ C ∪ G)).
Proof.
  intros HP HC Hlog G Lc.
  assert (Hone : forall P' c,
    written (log_call S P' message err (Some c) timestamp) =
      (written P' ++ [createEntry P' S message (Some c) (error_argument S err) timestamp])%list
    \/ shouldLog P' S = false).
  { intros P' c. rewrite log_call_unfold. destruct (shouldLog P' S); [left|right]; reflexivity. }
  split; [|split; [|split; [|split]]].
  - rewrite (child_call_entry S w d P C message err L timestamp HP HC).
    destruct (Hone P (Lc ∪ C)) as [Hw|Hno]; [|congruence].
    eexists. split; [exact (f_equal Some Hw)|].
    apply createEntry_context_given.
  - unfold Delegating.child, alloc. cbn zeta.
    set (ref := fresh (dom (objects w))).
    set (w2 := {| loggers := loggers w; objects := _ |}).
    set (d2 := {| parent := parent d; childContext := ref |}).
    assert (HP2 : loggers w2 !! parent d2 = Some P) by exact HP.
    assert (HC2 : objects w2 !! childContext d2 = Some (C2 ∪ C)).
    { unfold w2, d2, read_object, spread. simpl. rewrite HC. apply lookup_insert_eq. }
    rewrite (child_call_entry S w2 d2 P (C2 ∪ C) message err L timestamp HP2 HC2).
    destruct (Hone P (Lc ∪ (C2 ∪ C))) as [Hw|Hno]; [|congruence].
    eexists. split; [exact (f_equal Some Hw)|].
    apply createEntry_context_given.
  - intros k. apply precedence_lookup.
  - intros k. apply redact_fields_lookup.
  - apply emitted_context_unredacted.
Qed.

Lemma child_entry_context_is_redacted_union_witness :
  let P := setContext (new_BaseLogger no_options) {[ "a" := VNum 1 ]} in
  let C : LogContext := {[ "b" := VNum 2 ]} in
  let L : LogContext := {[ "c" := VNum 3 ]} in
  let w := {| loggers := {[ 0%nat := P ]}; objects := {[ 0%nat := C ]} |} in
  let d := fst (Base.child w 0 0) in
  exists entry,
    written <$> loggers (child_call info_level w d "m" VUndefined (Some L) "t") !! parent d
      = Some (written P ++ [entry])%list /\
    entry_context entry = emitted_context P (L ∪ C ∪ globalContext P).
Proof.
  intros P C L w d.
  refine (proj1 (child_entry_context_is_redacted_union w d P C ∅ info_level "m"
                   VUndefined (Some L) "t" _ _ _)).
  - vm_compute. reflexivity.
  - vm_compute. reflexivity.
  - vm_compute. reflexivity.
Defined.

(** ** Frame of a child's [setContext] *)

(** C5. A child's [setContext] changes no logger of the store, so the
    parent's global context is what it was; only the child's own context
    object is updated. A log call then made on the parent emits exactly
    the entry it would have emitted without the child's call: its context
    is built from the parent's global context and the call-site context
    alone, and a key that is in neither does not occur in it. *)
Theorem child_setContext_leaves_parent_unchanged
    (w : World) (p c : nat) (P : BaseLogger) (update : LogContext)
    (S : LogLevel) (message : string) (err : JsValue) (L : option LogContext)
    (timestamp : string) :
  loggers w !! p = Some P ->
  let d := fst (Base.child w p c) in
  let w1 := Delegating.setContext (snd (Base.child w p c)) d update in
  loggers w1 = loggers w /\
  globalContext <$> loggers w1 !! p = Some (globalContext P) /\
  (forall r, r <> c -> objects w1 !! r = objects w !! r) /\
  objects w1 !! c = (fun own => Object_assign own update) <$> objects w !! c /\
  loggers (parent_call S w1 p message err L timestamp)
    = loggers (parent_call S w p message err L timestamp) /\
  loggers (parent_call S w1 p message err L timestamp) !! p
    = Some (log_call S P message err L timestamp) /\
  (let entry := createEntry P S message L (error_argument S err) timestamp in
   entry_context entry =
     match L with
     | Some l => emitted_context P (l ∪ globalContext P)
     | None => if bool_decide (globalContext P = ∅) then None
               else emitted_context P (globalContext P)
     end /\
   forall k m,
     has_property (default ∅ L ∪ globalContext P) k = false ->
     entry_context entry = Some m -> m !! k = None).
Proof.
  intros HP d w1. unfold w1, d, Base.child, Delegating.setContext.
  cbn [fst snd parent childContext loggers objects].
  split; [reflexivity|]. split; [rewrite HP; reflexivity|].
  split; [intros r Hr; apply lookup_alter_ne; congruence|].
  split; [apply lookup_alter_eq|].
  split; [rewrite !parent_call_unfold; reflexivity|].
  split; [rewrite parent_call_unfold, with_logger_lookup;
          cbn [loggers]; rewrite HP; reflexivity|].
  cbn zeta.
  assert (Hctx : entry_context (createEntry P S message L (error_argument S err) timestamp) =
     match L with
     | Some l => emitted_context P (l ∪ globalContext P)
     | None => if bool_decide (globalContext P = ∅) then None
               else emitted_context P (globalContext P)
     end).
  { destruct L as [l|];
      [apply createEntry_context_given | apply createEntry_context_omitted]. }
  split; [exact Hctx|].
  intros k m Hk Hm. rewrite Hctx in Hm.
  assert (Hem : forall x, default ∅ L ∪ globalContext P = x ->
                          emitted_context P x = Some m -> m !! k = None).
  { intros x <-. unfold emitted_context. intros H.
    destruct (bool_decide _) in H; [discriminate|].
    injection H as <-. apply redact_fields_absent. exact Hk. }
  destruct L as [l|].
  - apply (Hem _ eq_refl Hm).
  - destruct (bool_decide (globalContext P = ∅)); [discriminate|].
    apply (Hem (globalContext P)); [|exact Hm].
    simpl. apply (left_id_L ∅ (∪)).
Qed.

Lemma child_setContext_leaves_parent_unchanged_witness :
  let P := setContext (new_BaseLogger no_options) {[ "service" := VStr "parent" ]} in
  let w := {| loggers := {[ 0%nat := P ]};
              objects := {[ 0%nat := {[ "requestId" := VStr "child-req" ]} ]} |} in
  let d := fst (Base.child w 0 0) in
  let w1 := Delegating.setContext (snd (Base.child w 0 0)) d {[ "extra" := VStr "childOnly" ]} in
  globalContext <$> loggers w1 !! 0%nat = Some (globalContext P).
Proof.
  intros P w d w1.
  refine (proj1 (proj2 (child_setContext_leaves_parent_unchanged w 0 0 P
            {[ "extra" := VStr "childOnly" ]} info_level "Parent log" VUndefined None "t" _))).
  vm_compute. reflexivity.
Defined.

(** The test of the parent's entry after the child's [setContext]. *)
Example parent_entry_after_child_setContext :
  let P := setContext (new_BaseLogger no_options) {[ "service" := VStr "parent" ]} in
  let w := {| loggers := {[ 0%nat := P ]};
              objects := {[ 0%nat := {[ "requestId" := VStr "child-req" ]} ]} |} in
  let d := fst (Base.child w 0 0) in
  let w1 := Delegating.setContext (snd (Base.child w 0 0)) d {[ "extra" := VStr "childOnly" ]} in
  (map entry_context ∘ written) <$> loggers (Base.info w1 0 "Parent log" None "t") !! 0%nat
    = Some [Some {[ "service" := VStr "parent" ]}] /\
  (map entry_context ∘ written) <$> loggers (Delegating.info w1 d "child message" None "t") !! 0%nat
    = Some [Some {[ "service" := VStr "parent"; "requestId" := VStr "child-req";
                    "extra" := VStr "childOnly" ]}].
Proof. split; vm_compute; reflexivity. Qed.

(** ** Delegation *)

Lemma log_call_frame (S : LogLevel) (self : BaseLogger) (message : string) (err : JsValue)
    (context : option LogContext) (timestamp : string) :
  config (log_call S self message err context timestamp) = config self /\
  globalContext (log_call S self message err context timestamp) = globalContext self /\
  written (log_call S self message err context timestamp) =
    (written self ++
       if shouldLog self S
       then [createEntry self S message context (error_argument S err) timestamp]
       else [])%list.
Proof.
  rewrite log_call_unfold. destruct (shouldLog self S); simpl; repeat split.
  symmetry. apply app_nil_r.
Qed.

(** C6. [child(context)] creates no logger: the store of loggers, with
    their configurations and outputs, is left as it is, and the child
    refers to its parent and to the given context object. A log call on
    the child is the parent's log call on the merged context: it touches
    no other logger and no object, it is filtered by the parent's level,
    and the entry, with the parent's prefix, is appended to the parent's
    output. After a later [setContext] on the parent, the entries emitted
    through the child are built from the updated global context. *)
Theorem child_delegates_to_parent
    (w : World) (p c : nat) (P : BaseLogger) (C U : LogContext)
    (S : LogLevel) (message : string) (err : JsValue) (L : option LogContext)
    (timestamp : string) :
  loggers w !! p = Some P ->
  objects w !! c = Some C ->
  let d := fst (Base.child w p c) in
  let w0 := snd (Base.child w p c) in
  let merged := default ∅ L ∪ C in
  let after := child_call S w0 d message err L timestamp in
  let w1 := Base.setContext w0 p U in
  let after1 := child_call S w1 d message err L timestamp in
  (w0 = w /\ parent d = p /\ childContext d = c) /\
  (after = parent_call S w p message err (Some merged) timestamp /\
   dom (loggers after) = dom (loggers w) /\
   (forall q, q <> p -> loggers after !! q = loggers w !! q) /\
   objects after = objects w) /\
  (exists P',
     loggers after !! p = Some P' /\
     config P' = config P /\
     globalContext P' = globalContext P /\
     written P' =
       (written P ++
          if shouldLog P S
          then [createEntry P S message (Some merged) (error_argument S err) timestamp]
          else [])%list /\
     entry_message (createEntry P S message (Some merged) (error_argument S err) timestamp)
       = prefixed P message) /\
  (exists P1,
     loggers after1 !! p = Some P1 /\
     globalContext P1 = U ∪ globalContext P /\
     written P1 =
       (written P ++
          if shouldLog P S
          then [createEntry (setContext P U) S message (Some merged)
                  (error_argument S err) timestamp]
          else [])%list /\
     entry_context (createEntry (setContext P U) S message (Some merged)
                      (error_argument S err) timestamp)
       = emitted_context P (default ∅ L ∪ C ∪ (U ∪ globalContext P))).
Proof.
  intros HP HC d w0 merged after w1 after1.
  assert (Hd : d = {| parent := p; childContext := c |}) by reflexivity.
  assert (Hw0 : w0 = w) by reflexivity.
  assert (Hafter : after = parent_call S w p message err (Some merged) timestamp).
  { unfold after. rewrite child_call_delegates, Hw0, Hd. cbn [parent].
    rewrite (mergeContext_layers w _ C L); [reflexivity|exact HC]. }
  split; [repeat split|].
  split; [split; [exact Hafter|]|].
  - rewrite Hafter, parent_call_unfold. split; [apply with_logger_dom|].
    split; [|reflexivity].
    intros q Hq. apply with_logger_lookup_ne. congruence.
  - split.
    + exists (log_call S P message err (Some merged) timestamp).
      destruct (log_call_frame S P message err (Some merged) timestamp) as (Hc & Hg & Hwr).
      split; [rewrite Hafter, parent_call_unfold, with_logger_lookup, HP; reflexivity|].
      repeat split; assumption.
    + exists (log_call S (setContext P U) message err (Some merged) timestamp).
      destruct (log_call_frame S (setContext P U) message err (Some merged) timestamp)
        as (Hc & Hg & Hwr).
      split.
      { unfold after1. rewrite child_call_delegates, parent_call_unfold, with_logger_lookup.
        unfold w1, Base.setContext. rewrite with_logger_lookup, Hw0, HP, Hd.
        cbn [parent fmap option_fmap option_map].
        rewrite (mergeContext_layers _ {| parent := p; childContext := c |} C L);
          [reflexivity|exact HC]. }
      split; [rewrite Hg; reflexivity|].
      split; [exact Hwr|].
      apply createEntry_context_given.
Qed.

Lemma child_delegates_to_parent_witness :
  let P := new_BaseLogger
    {| opt_level := Some (VStr "debug"); opt_format := None; opt_timestamps := None;
       opt_prefix := Some "Test"; opt_sanitizeErrors := None; opt_redactFields := None |} in
  let w := {| loggers := {[ 0%nat := P ]};
              objects := {[ 0%nat := {[ "requestId" := VStr "123" ]} ]} |} in
  snd (Base.child w 0 0) = w /\
  parent (fst (Base.child w 0 0)) = 0%nat /\
  childContext (fst (Base.child w 0 0)) = 0%nat.
Proof.
  intros P w.
  refine (proj1 (child_delegates_to_parent w 0 0 P {[ "requestId" := VStr "123" ]}
                   {[ "service" := VStr "parent" ]} debug_level "debug message"
                   VUndefined None "t" _ _)).
  - vm_compute. reflexivity.
  - vm_compute. reflexivity.
Defined.

(** The tests of the delegating child: the parent's prefix and level
    apply, and a context set on the parent after the child was created
    shows in the child's entries. *)
Example child_uses_parent_prefix_and_late_context :
  let P := new_BaseLogger
    {| opt_level := Some (VStr "debug"); opt_format := None; opt_timestamps := None;
       opt_prefix := Some "Test"; opt_sanitizeErrors := None; opt_redactFields := None |} in
  let w := {| loggers := {[ 0%nat := P ]};
              objects := {[ 0%nat := {[ "requestId" := VStr "123" ]} ]} |} in
  let d := fst (Base.child w 0 0) in
  let w1 := Base.setContext w 0 {[ "service" := VStr "late" ]} in
  (map (fun e => (entry_message e, entry_context e)) ∘ written) <$>
    loggers (Delegating.debug w1 d "debug message" None "t") !! 0%nat
  = Some [("[Test] debug message",
           Some {[ "service" := VStr "late"; "requestId" := VStr "123" ]})].
Proof. vm_compute. reflexivity. Qed.

(** The child of release 1.0.0 was a copy: it wrote to its own output
    and did not see a context set on the parent after its creation. *)
Remark release_1_0_0_child_is_a_copy :
  let P := new_BaseLogger no_options in
  let w := {| loggers := {[ 0%nat := P ]}; objects := ∅ |} in
  let '(c, w0) := Release_1_0_0.child w 0 {[ "requestId" := VStr "123" ]} in
  let w1 := Base.setContext w0 0 {[ "service" := VStr "late" ]} in
  let w2 := Base.info w1 c "message" None "t" in
  c = 1%nat /\
  written <$> loggers w2 !! 0%nat = Some [] /\
  (map entry_context ∘ written) <$> loggers w2 !! c
    = Some [Some {[ "requestId" := VStr "123" ]}].
Proof. repeat split; vm_compute; reflexivity. Qed.

(** ** The timer registry *)

Lemma perf_start_fresh (label : string) (now : Z) (r : perf.Registry) :
  perf.activeTimers r !! label = None ->
  fst (perf.start label now r) = true /\
  perf.activeTimers (snd (perf.start label now r)) !! label = Some now.
Proof.
  intros Hnone. unfold perf.start.
  rewrite bool_decide_false by (rewrite Hnone; intros [x Hx]; discriminate Hx).
  split; [reflexivity|]. apply lookup_insert_eq.
Qed.

Lemma perf_start_other (label label' : string) (now : Z) (r : perf.Registry) :
  label <> label' ->
  perf.activeTimers (snd (perf.start label' now r)) !! label = perf.activeTimers r !! label.
Proof.
  intros Hne. unfold perf.start.
  destruct (bool_decide (is_Some (perf.activeTimers r !! label'))); simpl; [reflexivity|].
  apply lookup_insert_ne. congruence.
Qed.

Lemma perf_end_other (label label' : string) (now : Z) (r : perf.Registry) :
  label <> label' ->
  perf.activeTimers (snd (perf.end_ label' now r)) !! label = perf.activeTimers r !! label.
Proof.
  intros Hne. unfold perf.end_.
  destruct (perf.activeTimers r !! label'); simpl; [|reflexivity].
  apply lookup_delete_ne. congruence.
Qed.

(** C7. [perf.start(label)] on a label whose timer is active returns
    [false], sends one warning to the console and leaves both maps as they
    are, so the first start time stays in the active timers; the duration
    that a later [perf.end(label)] returns is measured from it. *)
Theorem start_keeps_active_timer
    (r : perf.Registry) (label : string) (t0 t1 t2 : Z) :
  perf.activeTimers r !! label = Some t0 ->
  let second := perf.start label t1 r in
  fst second = false /\
  perf.activeTimers (snd second) = perf.activeTimers r /\
  perf.activeTimers (snd second) !! label = Some t0 /\
  perf.metricsStore (snd second) = perf.metricsStore r /\
  perf.warnings (snd second) = (perf.warnings r ++ [perf.already_active label])%list /\
  fst (perf.end_ label t2 (snd second)) = (t2 - t0)%Z /\
  perf.activeTimers (snd (perf.end_ label t2 (snd second))) !! label = None.
Proof.
  intros Hactive second. unfold second, perf.start.
  rewrite bool_decide_true by (rewrite Hactive; eauto).
  cbn [fst snd perf.console_warn perf.activeTimers perf.metricsStore perf.warnings].
  split; [reflexivity|]. split; [reflexivity|]. split; [assumption|].
  split; [reflexivity|]. split; [reflexivity|].
  unfold perf.end_, perf.console_warn. cbn [perf.activeTimers]. rewrite Hactive.
  split; [reflexivity|].
  cbn [snd perf.activeTimers]. apply lookup_delete_eq.
Qed.

Lemma start_keeps_active_timer_witness :
  let r := snd (perf.start "render" 10 perf.empty) in
  fst (perf.start "render" 25 r) = false /\
  fst (perf.end_ "render" 40 (snd (perf.start "render" 25 r))) = 30%Z.
Proof.
  intros r.
  pose proof (start_keeps_active_timer r "render" 10 25 40 eq_refl) as H.
  cbv zeta in H. destruct H as (H1 & _ & _ & _ & _ & H2 & _).
  split; [exact H1 | exact H2].
Defined.

(** ** Timing an asynchronous function *)

(** C8. [timeAsync(label, fn)] settles as [fn] does, with the same value
    or the same rejection, and in both cases the timer is ended after
    [fn]: the logger's output is the output [fn] left, followed by one
    debug-level timing entry when the level filter admits debug entries,
    and by nothing otherwise. *)
Theorem timeAsync_propagates_and_logs_once
    {T : Type} (w : World) (p : nat) (label : string)
    (fn : World -> Settled T * World) (start finish : Z) (timestamp : string)
    (P1 : BaseLogger) :
  loggers (snd (fn w)) !! p = Some P1 ->
  let result := Base.timeAsync w p label fn start finish timestamp in
  fst result = fst (fn w) /\
  (forall v, fst (fn w) = Resolved v -> fst result = Resolved v) /\
  (forall e, fst (fn w) = Rejected e -> fst result = Rejected e) /\
  (exists P2,
     loggers (snd result) !! p = Some P2 /\
     written P2 =
       (written P1 ++
          if shouldLog P1 debug_level
          then [timing_entry P1 label start finish timestamp]
          else [])%list /\
     entry_level (timing_entry P1 label start finish timestamp) = debug_level) /\
  (forall q, q <> p -> loggers (snd result) !! q = loggers (snd (fn w)) !! q) /\
  objects (snd result) = objects (snd (fn w)).
Proof.
  intros HP1 result. unfold result, Base.timeAsync, Base.end_timer, Base.time.
  destruct (fn w) as [outcome w1] eqn:Hfn. cbn [fst snd] in *.
  split; [reflexivity|]. split; [auto|]. split; [auto|].
  split; [|split; [|reflexivity]].
  - eexists. split; [rewrite with_logger_lookup, HP1; reflexivity|].
    split; [|reflexivity].
    unfold Timer_end, time, debug, timing_entry. cbn [snd timer_label timer_start].
    destruct (shouldLog P1 debug_level); cbn [written write].
    + reflexivity.
    + symmetry. apply app_nil_r.
  - intros q Hq. apply with_logger_lookup_ne. congruence.
Qed.

Lemma timeAsync_propagates_and_logs_once_witness :
  let P := new_BaseLogger
    {| opt_level := Some (VStr "debug"); opt_format := None; opt_timestamps := None;
       opt_prefix := None; opt_sanitizeErrors := None; opt_redactFields := None |} in
  let w := {| loggers := {[ 0%nat := P ]}; objects := ∅ |} in
  let fn := fun w' : World =>
    (@Rejected unit (VError "Error" "Async failure" CodeAbsent None), w') in
  fst (Base.timeAsync w 0 "failing-op" fn 0 25 "t")
    = Rejected (VError "Error" "Async failure" CodeAbsent None).
Proof.
  intros P w fn.
  refine (proj1 (timeAsync_propagates_and_logs_once w 0 "failing-op" fn 0 25 "t" P _)).
  vm_compute. reflexivity.
Defined.

(** The test of a failing asynchronous function: the rejection reaches
    the caller and the timing entry is written all the same. *)
Example timeAsync_rejecting_function :
  let P := new_BaseLogger
    {| opt_level := Some (VStr "debug"); opt_format := None; opt_timestamps := None;
       opt_prefix := None; opt_sanitizeErrors := None; opt_redactFields := None |} in
  let w := {| loggers := {[ 0%nat := P ]}; objects := ∅ |} in
  let fn := fun w' : World =>
    (@Rejected unit (VError "Error" "Async failure" CodeAbsent None), w') in
  let result := Base.timeAsync w 0 "failing-op" fn 0 25 "t" in
  fst result = Rejected (VError "Error" "Async failure" CodeAbsent None) /\
  (map entry_message ∘ written) <$> loggers (snd result) !! 0%nat
    = Some ["failing-op: 25.00ms"].
Proof. split; vm_compute; reflexivity. Qed.

(** ** Message sanitization *)

(** The expectations of the test suite for [formatError]. *)
Example sanitize_test_suite :
  sanitizeErrorMessage "Authorization: Bearer token123abc failed"
    = "Authorization: Bearer [REDACTED] failed" /\
  sanitizeErrorMessage "Failed with token=mysecrettoken" = "Failed with token=[REDACTED]" /\
  sanitizeErrorMessage "Invalid secret: mysecret123" = "Invalid secret=[REDACTED]" /\
  sanitizeErrorMessage "Bad password=badpass123" = "Bad password=[REDACTED]" /\
  sanitizeErrorMessage "API failed with api_key: sk-12345" = "API failed with api_key=[REDACTED]" /\
  sanitizeErrorMessage "" = "".
Proof. repeat split; vm_compute; reflexivity. Qed.

(** Quoted values with spaces and delimiters, and the later key families. *)
Example sanitize_quoted_and_later_families :
  sanitizeErrorMessage "token='my secret, with; delimiters' rest" = "token=[REDACTED] rest" /\
  sanitizeErrorMessage "authorization=Basic,x access_token=xyz; refresh-token: 'a b' API-KEY=1"
    = "authorization=[REDACTED],x access_token=[REDACTED]; refresh_token=[REDACTED] api_key=[REDACTED]".
Proof. repeat split; vm_compute; reflexivity. Qed.

(** C2: inputs on which a value that follows one of the keys survives
    sanitization. The word [Bearer] before the key makes the bearer rule,
    which runs first, consume the key itself as if it were the token, so
    the unquoted value [abc123] after [token:] is left in place; in front
    of a quoted value the same rule stops at the first space inside the
    quotes; and a quoted value that contains the other quote character is
    cut at that character. *)
Theorem sanitize_leaves_secret_in_place :
  sanitizeErrorMessage "Invalid Bearer token: abc123" = "Invalid Bearer [REDACTED] abc123" /\
  includes "abc123" (sanitizeErrorMessage "Invalid Bearer token: abc123") = true /\
  sanitizeErrorMessage "Bearer token='my secret'" = "Bearer [REDACTED] secret'" /\
  sanitizeErrorMessage ("password=" +:+ String dquote ("it's a secret" +:+ String dquote ""))
    = "password=[REDACTED]s a secret" +:+ String dquote "".
Proof. repeat split; vm_compute; reflexivity. Qed.

(** The patterns of release 1.0.0 stopped at the first space of a quoted
    value, which LOG-ERR-001 repaired; the bearer rule ran first then as
    now. *)
Remark release_1_0_0_sanitizer :
  Release_1_0_0.sanitizeErrorMessage "token='my secret'" = "token=[REDACTED] secret'" /\
  sanitizeErrorMessage "token='my secret'" = "token=[REDACTED]" /\
  Release_1_0_0.sanitizeErrorMessage "Invalid Bearer token: abc123"
    = "Invalid Bearer [REDACTED] abc123".
Proof. repeat split; vm_compute; reflexivity. Qed.

(** *** The bearer rule on [authorization=Bearer <token>] *)




Lemma iterate_class_end (negated : bool) (items : list citem)
    (k : list ascii -> option (list ascii)) (fuel : nat) :
  iterate (run true (Class negated items)) true k fuel [] = k [].
Proof. destruct fuel; reflexivity. Qed.











Lemma fold_rules_skip_prefix (prefix : string) (rules : list (regex * string)) :
  (forall rule following, In rule rules ->
     apply_rule (prefix +:+ following) rule = prefix +:+ apply_rule following rule) ->
  forall following,
    fold_left apply_rule rules (prefix +:+ following)
    = prefix +:+ fold_left apply_rule rules following.
Proof.
  induction rules as [|rule rules IH]; intros Hskip following; [reflexivity|].
  cbn [fold_left]. rewrite Hskip by (left; reflexivity).
  apply IH. intros r f Hr. apply Hskip. right. exact Hr.
Qed.




(** The text in front of the occurrence. *)
Lemma ends_in_front_nil (r : regex) : ends_in_front r [].
Proof.
  intros before t following Heq Hne. destruct before; destruct t; try discriminate.
  contradiction.
Qed.

Lemma ends_in_front_cons (r : regex) (c : ascii) (front : list ascii) :
  (forall following,
     match_length true r (c :: front ++ list_ascii_of_string occurrence_head ++ following)%list
     = match_length true r (c :: front)) ->
  ends_in_front r front ->
  ends_in_front r (c :: front).
Proof.
  intros Hhere Hlater before t following Heq Hne.
  destruct before as [|c' before'].
  - cbn [app] in Heq. subst t. apply Hhere.
  - cbn [app] in Heq. injection Heq as _ Heq. exact (Hlater before' t following Heq Hne).
Qed.










(** A match that stops inside the front has the same length whatever
    follows the front. *)
Lemma match_length_in_front (r : regex) (c : ascii) (s rest tail : list ascii) :
  run true r (c :: s ++ tail) (fun s' => Some s') = Some (rest ++ tail)%list ->
  run true r (c :: s) (fun s' => Some s') = Some rest ->
  match_length true r (c :: s ++ tail) = match_length true r (c :: s).
Proof.
  intros Hlong Hshort. unfold match_length. rewrite Hlong, Hshort.
  cbn [length]. rewrite !length_app. f_equal. lia.
Qed.

(** A front with a secret of its own is sanitized apart as well: the
    password rule matches in it, and its match ends before the comma. *)
Example front_with_a_secret_is_sanitized_apart :
  sanitized_apart sanitize_rules "password=x, " /\
  sanitizeErrorMessage "password=x, " = "password=[REDACTED], ".
Proof.
  split; [|vm_compute; reflexivity].
  unfold sanitize_rules. cbn [sanitized_apart fst].
  repeat match goal with
         | |- _ /\ _ => split
         | |- True => exact I
         | |- ends_in_front ?r ?front =>
             let front' := eval vm_compute in front in
             replace front with front' by (vm_compute; reflexivity);
             repeat (apply ends_in_front_cons;
                     [intros following;
                      first [ vm_compute; reflexivity
                            | apply (match_length_in_front _ _ _ (list_ascii_of_string ", "));
                              vm_compute; reflexivity ]
                     |]);
             apply ends_in_front_nil
         end.
Qed.

(** The front of the message in which the occurrence is consumed is not
    sanitized apart: the match of the token rule that starts at its key
    goes on into the occurrence. *)
Example front_with_an_open_key_is_not_sanitized_apart :
  ~ sanitized_apart sanitize_rules "Invalid token: ".
Proof.
  unfold sanitize_rules. cbn [sanitized_apart fst]. intros (_ & Htoken & _).
  replace (apply_rule "Invalid token: " (re_bearer, "Bearer [REDACTED]"))
    with "Invalid token: " in Htoken by (vm_compute; reflexivity).
  specialize (Htoken (list_ascii_of_string "Invalid ") (list_ascii_of_string "token: ")
                (list_ascii_of_string "[REDACTED]") eq_refl).
  vm_compute in Htoken. specialize (Htoken ltac:(discriminate)). discriminate Htoken.
Qed.

(** Messages with text in front of the occurrence, one of them with a
    secret of its own in the front. *)
Example occurrence_behind_a_front :
  sanitizeErrorMessage "Request failed, authorization=Bearer abc123 now"
    = "Request failed, authorization=Bearer [REDACTED] now" /\
  sanitizeErrorMessage "Error: authorization=Bearer abc123"
    = "Error: authorization=Bearer [REDACTED]" /\
  sanitizeErrorMessage "password=x, authorization=Bearer abc123"
    = "password=[REDACTED], authorization=Bearer [REDACTED]".
Proof. repeat split; vm_compute; reflexivity. Qed.

(** * Further properties of the logging core *)

(** ** Field redaction *)

Lemma redact_fields_redacts (fields : list string) (m : LogContext) (k : string) :
  redacts (fold_left redact_field fields m) k = redacts m k.
Proof.
  revert m. induction fields as [|f fs IH]; intros m; cbn [fold_left]; [reflexivity|].
  rewrite IH. apply redact_field_redacts.
Qed.

(** X1. Field redaction is idempotent: redacting a redacted context
    changes nothing. *)
Theorem redactSensitiveFields_idempotent (self : BaseLogger) (context : LogContext) :
  redactSensitiveFields self (redactSensitiveFields self context)
  = redactSensitiveFields self context.
Proof.
  unfold redactSensitiveFields. apply map_eq. intros k.
  rewrite (redact_fields_lookup _ (fold_left _ _ _)), redact_fields_redacts.
  rewrite (redact_fields_lookup _ context).
  destruct (bool_decide (k ∈ fieldsToRedact self) && redacts context k); reflexivity.
Qed.

Lemma redact_own_property (self : BaseLogger) (context : LogContext)
    (k : string) (v : JsValue) :
  context !! k = Some v ->
  redactSensitiveFields self context !! k
  = Some (if bool_decide (k ∈ fieldsToRedact self) then VStr REDACTED else v).
Proof.
  intros Hk. unfold redactSensitiveFields. rewrite redact_fields_lookup.
  assert (Hred : redacts context k = true).
  { unfold redacts, has_property.
    rewrite (bool_decide_true (is_Some (context !! k))) by (rewrite Hk; eauto).
    cbn [orb negb andb]. rewrite andb_false_r. reflexivity. }
  rewrite Hred, andb_true_r, Hk.
  destruct (bool_decide (k ∈ fieldsToRedact self)); reflexivity.
Qed.

(** X2. Field redaction rewrites exactly the listed properties: a property
    of the context whose name is a redact field comes out as the
    sentinel, a property whose name is not a redact field keeps its
    value, and no property is removed. *)
Theorem redactSensitiveFields_exact (self : BaseLogger) (context : LogContext)
    (k : string) (v : JsValue) :
  context !! k = Some v ->
  redactSensitiveFields self context !! k
  = Some (if bool_decide (k ∈ fieldsToRedact self) then VStr REDACTED else v).
Proof. apply redact_own_property. Qed.

Lemma redactSensitiveFields_exact_witness :
  redactSensitiveFields (new_BaseLogger no_options)
    {[ "userId" := VStr "123"; "password" := VStr "secret123" ]} !! "password"
  = Some (VStr REDACTED).
Proof.
  apply (redactSensitiveFields_exact (new_BaseLogger no_options)
           {[ "userId" := VStr "123"; "password" := VStr "secret123" ]}
           "password" (VStr "secret123")).
  vm_compute. reflexivity.
Defined.

(** X3. Field redaction adds a property only for a redact field that
    names a property inherited from [Object.prototype] (other than
    [__proto__]); such a field shows up, redacted, in every context that
    is redacted, also in an empty one. *)
Theorem redactSensitiveFields_inherited_name (self : BaseLogger) (context : LogContext)
    (k : string) :
  context !! k = None ->
  redactSensitiveFields self context !! k
  = if bool_decide (k ∈ fieldsToRedact self) &&
       bool_decide (k ∈ Object_prototype_names) &&
       negb (bool_decide (k = "__proto__"))
    then Some (VStr REDACTED) else None.
Proof.
  intros Hk. unfold redactSensitiveFields. rewrite redact_fields_lookup, Hk.
  unfold redacts, has_property. rewrite Hk.
  rewrite (bool_decide_false (is_Some None)) by (intros [x Hx]; discriminate Hx).
  cbn [orb negb]. rewrite andb_true_r.
  destruct (bool_decide (k ∈ fieldsToRedact self)),
           (bool_decide (k ∈ Object_prototype_names)),
           (bool_decide (k = "__proto__")); reflexivity.
Qed.

Lemma redactSensitiveFields_inherited_name_witness :
  redactSensitiveFields
    (new_BaseLogger
       {| opt_level := None; opt_format := None; opt_timestamps := None; opt_prefix := None;
          opt_sanitizeErrors := None; opt_redactFields := Some ["constructor"] |})
    ∅ !! "constructor"
  = Some (VStr REDACTED).
Proof.
  apply (redactSensitiveFields_inherited_name
           (new_BaseLogger
              {| opt_level := None; opt_format := None; opt_timestamps := None;
                 opt_prefix := None; opt_sanitizeErrors := None;
                 opt_redactFields := Some ["constructor"] |})
           ∅ "constructor").
  reflexivity.
Defined.

(** ** Level filter *)

Lemma indexOf_levels_bound (v : JsValue) : (indexOf LOG_LEVELS v <= 3)%Z.
Proof.
  unfold indexOf, LOG_LEVELS. cbn [indexOf_from].
  repeat match goal with
         | |- context [if ?b then _ else _] => destruct b
         end; cbn; lia.
Qed.

(** X4. The level filter is monotone in the severity, whatever value the
    configuration holds as level: a logger that lets a severity through
    lets every higher severity through. *)
Theorem shouldLog_monotone (self : BaseLogger) (S S' : LogLevel) :
  (rank S <= rank S')%Z ->
  shouldLog self S = true ->
  shouldLog self S' = true.
Proof.
  unfold shouldLog. rewrite !indexOf_level. intros Hle H.
  apply Z.geb_le in H. apply Z.geb_le. lia.
Qed.

Lemma shouldLog_monotone_witness :
  shouldLog (new_BaseLogger no_options) error_level = true.
Proof.
  apply (shouldLog_monotone (new_BaseLogger no_options) info_level error_level).
  - vm_compute. discriminate.
  - reflexivity.
Defined.

(** X5. No configuration filters out errors: whatever the configured
    level, an [error] call writes its entry. *)
Theorem error_is_never_filtered (self : BaseLogger) (message : string) (err : JsValue)
    (context : option LogContext) (timestamp : string) :
  shouldLog self error_level = true /\
  written (error self message err context timestamp)
  = (written self ++ [createEntry self error_level message context err timestamp])%list.
Proof.
  assert (H : shouldLog self error_level = true).
  { unfold shouldLog. rewrite indexOf_level. apply Z.geb_le.
    apply (indexOf_levels_bound (cfg_level (config self))). }
  split; [exact H|]. unfold error. rewrite H. reflexivity.
Qed.

(** ** Sequences of calls *)

(** What a sequence of calls adds to the output: entries that some logger
    with the same configuration has built. *)
Lemma perform_all_written (calls : list Call) (self : BaseLogger) :
  config (perform_all self calls) = config self /\
  exists added,
    written (perform_all self calls) = (written self ++ added)%list /\
    (length added <= length calls)%nat /\
    Forall (fun e => exists self' S message context err timestamp,
                config self' = config self /\
                e = createEntry self' S message context err timestamp) added.
Proof.
  revert self. induction calls as [|c calls IH]; intros self.
  - split; [reflexivity|]. exists []. rewrite app_nil_r. repeat split; auto.
  - unfold perform_all. cbn [fold_left]. fold (perform_all (perform self c) calls).
    destruct (IH (perform self c)) as (Hcfg & added & Hw & Hlen & Hall).
    assert (Hstep : config (perform self c) = config self /\
              exists first, written (perform self c) = (written self ++ first)%list /\
                (length first <= 1)%nat /\
                Forall (fun e => exists self' S message context err timestamp,
                          config self' = config self /\
                          e = createEntry self' S message context err timestamp) first).
    { destruct c as [S message err context timestamp|context]; cbn [perform].
      - destruct (log_call_frame S self message err context timestamp) as (Hc & _ & Hwr).
        split; [exact Hc|]. eexists. split; [exact Hwr|].
        destruct (shouldLog self S); cbn [length]; split; try lia.
        + constructor; [|constructor]. exists self. eauto 10.
        + constructor.
      - split; [reflexivity|]. exists []. rewrite app_nil_r. repeat split; auto. }
    destruct Hstep as (Hcfg1 & first & Hw1 & Hlen1 & Hall1).
    split; [congruence|].
    exists (first ++ added)%list. rewrite Hw, Hw1, <- app_assoc.
    split; [reflexivity|]. split; [rewrite length_app; cbn [length]; lia|].
    apply Forall_app. split; [exact Hall1|].
    eapply Forall_impl; [exact Hall|].
    intros e (self' & S' & m & ctx & er & ts & Hc' & He).
    exists self', S', m, ctx, er, ts. split; [congruence|exact He].
Qed.

(** X6. The output of a logger is append-only and its configuration is
    fixed: after any sequence of log calls and [setContext] calls the
    configuration is the same, the entries written before are still
    there, in order, in front of the new ones, and at most one entry per
    call has been added. *)
Theorem output_is_append_only (self : BaseLogger) (calls : list Call) :
  config (perform_all self calls) = config self /\
  exists added,
    written (perform_all self calls) = (written self ++ added)%list /\
    (length added <= length calls)%nat.
Proof.
  destruct (perform_all_written calls self) as (Hcfg & added & Hw & Hlen & _).
  split; [exact Hcfg|]. exists added. split; assumption.
Qed.

Lemma createEntry_context_not_empty (self : BaseLogger) (S : LogLevel) (message : string)
    (context : option LogContext) (err : JsValue) (timestamp : string) :
  entry_context (createEntry self S message context err timestamp) <> Some ∅.
Proof.
  unfold createEntry. cbn [entry_context].
  destruct (mergeContext self context) as [merged|]; [|discriminate].
  destruct (bool_decide (merged = ∅)) eqn:E; [discriminate|].
  apply bool_decide_eq_false in E. intros H. injection H as H. contradiction.
Qed.

(** X7. No entry carries an empty context: if none of the entries written
    so far does, none does after any sequence of calls; a merge without
    properties is left out of the entry. *)
Theorem context_is_never_empty (self : BaseLogger) (calls : list Call) :
  Forall (fun e => entry_context e <> Some ∅) (written self) ->
  Forall (fun e => entry_context e <> Some ∅) (written (perform_all self calls)).
Proof.
  intros Hold.
  destruct (perform_all_written calls self) as (_ & added & Hw & _ & Hall).
  rewrite Hw. apply Forall_app. split; [exact Hold|].
  eapply Forall_impl; [exact Hall|].
  intros e (self' & S' & m & ctx & er & ts & _ & ->).
  apply createEntry_context_not_empty.
Qed.

Lemma context_is_never_empty_witness :
  Forall (fun e => entry_context e <> Some ∅)
    (written (perform_all (new_BaseLogger no_options)
                [call_log info_level "Test" VUndefined (Some ∅) "t"])).
Proof.
  apply (context_is_never_empty (new_BaseLogger no_options)
           [call_log info_level "Test" VUndefined (Some ∅) "t"]).
  constructor.
Defined.

Lemma formatError_sanitized_has_no_stack (self : BaseLogger) (err : JsValue) :
  cfg_sanitizeErrors (config self) = true ->
  err_stack (formatError self err) = None.
Proof. intros H. destruct err; cbn; try reflexivity. rewrite H. reflexivity. Qed.

(** X8. With [sanitizeErrors] enabled no stack trace is ever written: if
    no entry written so far has one, none has after any sequence of
    calls, whatever error values are logged. *)
Theorem sanitized_entries_have_no_stack (self : BaseLogger) (calls : list Call) :
  cfg_sanitizeErrors (config self) = true ->
  Forall (fun e => forall info, entry_error e = Some info -> err_stack info = None)
    (written self) ->
  Forall (fun e => forall info, entry_error e = Some info -> err_stack info = None)
    (written (perform_all self calls)).
Proof.
  intros Hs Hold.
  destruct (perform_all_written calls self) as (_ & added & Hw & _ & Hall).
  rewrite Hw. apply Forall_app. split; [exact Hold|].
  eapply Forall_impl; [exact Hall|].
  intros e (self' & S' & m & ctx & er & ts & Hcfg & ->) info.
  unfold createEntry. cbn [entry_error].
  destruct (truthy er); [|discriminate].
  intros H. injection H as <-.
  apply formatError_sanitized_has_no_stack. rewrite Hcfg. exact Hs.
Qed.

Lemma sanitized_entries_have_no_stack_witness :
  Forall (fun e => forall info, entry_error e = Some info -> err_stack info = None)
    (written (perform_all (new_BaseLogger no_options)
                [call_log error_level "Failed"
                   (VError "Error" "boom" CodeAbsent (Some "Error: boom at f")) None "t"])).
Proof.
  apply (sanitized_entries_have_no_stack (new_BaseLogger no_options)
           [call_log error_level "Failed"
              (VError "Error" "boom" CodeAbsent (Some "Error: boom at f")) None "t"]).
  - reflexivity.
  - constructor.
Defined.

(** ** The global context *)

(** X9. [setContext] only merges: two calls amount to one call with the
    second mapping laid over the first, a key of the mapping takes the
    new value and every other key keeps its own, no key is ever removed,
    and neither the output nor the configuration is touched. *)
Theorem setContext_merges (self : BaseLogger) (a b : LogContext) :
  setContext (setContext self a) b = setContext self (b ∪ a) /\
  (forall k, globalContext (setContext self a) !! k =
             match a !! k with
             | Some v => Some v
             | None => globalContext self !! k
             end) /\
  dom (globalContext self) ⊆ dom (globalContext (setContext self a)) /\
  written (setContext self a) = written self /\
  config (setContext self a) = config self.
Proof.
  split; [|split; [|split; [|split]]]; try reflexivity.
  - unfold setContext, spread. cbn [config globalContext written].
    rewrite (assoc_L (∪)). reflexivity.
  - intros k. unfold setContext, spread. cbn [globalContext].
    rewrite lookup_union. destruct (a !! k), (globalContext self !! k); reflexivity.
  - unfold setContext, spread. cbn [globalContext]. rewrite dom_union_L. set_solver.
Qed.

(** X10. Redaction is deferred to the entries: a redact field given to
    [setContext] is kept with its value in the global context, and every
    entry built afterwards shows it as the sentinel, also when the call
    site gives the same field again. *)
Theorem setContext_keeps_raw_value (self : BaseLogger) (given : LogContext)
    (k : string) (v : JsValue) (S : LogLevel) (message : string) (err : JsValue)
    (context : option LogContext) (timestamp : string) :
  given !! k = Some v ->
  k ∈ fieldsToRedact self ->
  globalContext (setContext self given) !! k = Some v /\
  exists emitted,
    entry_context (createEntry (setContext self given) S message context err timestamp)
      = Some emitted /\
    emitted !! k = Some (VStr REDACTED).
Proof.
  intros Hk Hin.
  assert (Hg : globalContext (setContext self given) !! k = Some v).
  { unfold setContext, spread. cbn [globalContext].
    rewrite lookup_union, Hk. destruct (globalContext self !! k); reflexivity. }
  split; [exact Hg|].
  assert (Hkey : forall merged w, merged !! k = Some w ->
            exists emitted, emitted_context (setContext self given) merged = Some emitted /\
                            emitted !! k = Some (VStr REDACTED)).
  { intros merged w Hm. unfold emitted_context.
    pose proof (redact_own_property (setContext self given) merged k w Hm) as Hr.
    rewrite (bool_decide_true (k ∈ fieldsToRedact (setContext self given))) in Hr
      by exact Hin.
    destruct (bool_decide _) eqn:E.
    - apply bool_decide_eq_true in E. rewrite E, lookup_empty in Hr. discriminate Hr.
    - eexists. split; [reflexivity|exact Hr]. }
  destruct context as [c|].
  - rewrite createEntry_context_given.
    destruct (c !! k) as [w|] eqn:Hc.
    + apply (Hkey _ w). rewrite lookup_union, Hc.
      destruct (globalContext (setContext self given) !! k); reflexivity.
    + apply (Hkey _ v). rewrite lookup_union, Hc, Hg. reflexivity.
  - rewrite createEntry_context_omitted.
    rewrite bool_decide_false.
    + apply (Hkey _ v). exact Hg.
    + intros He. rewrite He, lookup_empty in Hg. discriminate Hg.
Qed.

Lemma setContext_keeps_raw_value_witness :
  globalContext (setContext (new_BaseLogger no_options) {[ "token" := VStr "abc" ]}) !! "token"
  = Some (VStr "abc").
Proof.
  refine (proj1 (setContext_keeps_raw_value (new_BaseLogger no_options)
                   {[ "token" := VStr "abc" ]} "token" (VStr "abc")
                   info_level "m" VUndefined None "t" _ _)).
  - vm_compute. reflexivity.
  - vm_compute. repeat constructor.
Defined.

(** ** Delegating children *)

Lemma Object_assign_lookup (target source : LogContext) (k : string) :
  k <> "__proto__" ->
  Object_assign target source !! k =
  match source !! k with
  | Some v => Some v
  | None => target !! k
  end.
Proof.
  intros Hk. unfold Object_assign. rewrite lookup_union.
  destruct (bool_decide (is_Some (target !! "__proto__"))).
  - destruct (source !! k), (target !! k); reflexivity.
  - rewrite lookup_delete_ne by congruence.
    destruct (source !! k), (target !! k); reflexivity.
Qed.

(** X11. The layer of a child's child is a copy made when it is created:
    the new logger writes to the same parent, its context object is a
    new one holding the child's layer overlaid with the given context,
    and a later [setContext] on either of the two does not reach the
    other; the entries of the grandchild after the child's [setContext]
    are built from the copy. *)
Theorem grandchild_layer_is_a_snapshot
    (w : World) (d : DelegatingLogger) (P : BaseLogger) (C C2 U : LogContext)
    (S : LogLevel) (message : string) (err : JsValue) (L : option LogContext)
    (timestamp : string) :
  loggers w !! parent d = Some P ->
  objects w !! childContext d = Some C ->
  let d2 := fst (Delegating.child w d C2) in
  let w2 := snd (Delegating.child w d C2) in
  parent d2 = parent d /\
  childContext d2 <> childContext d /\
  loggers w2 = loggers w /\
  objects w2 !! childContext d = Some C /\
  objects w2 !! childContext d2 = Some (C2 ∪ C) /\
  objects (Delegating.setContext w2 d U) !! childContext d2 = Some (C2 ∪ C) /\
  objects (Delegating.setContext w2 d2 U) !! childContext d = Some C /\
  loggers (child_call S (Delegating.setContext w2 d U) d2 message err L timestamp) !! parent d
    = Some (log_call S P message err (Some (default ∅ L ∪ (C2 ∪ C))) timestamp).
Proof.
  intros HP HC d2 w2. unfold d2, w2, Delegating.child, alloc. cbn [fst snd].
  set (ref := fresh (dom (objects w))).
  assert (Hfresh : ref <> childContext d).
  { intros Heq. apply (is_fresh (dom (objects w))). fold ref. rewrite Heq.
    apply elem_of_dom. rewrite HC. eauto. }
  cbn [parent childContext loggers objects].
  assert (Hnew : <[ref := spread (read_object w (childContext d)) C2]> (objects w) !! ref
                 = Some (C2 ∪ C)).
  { unfold read_object, spread. rewrite HC. apply lookup_insert_eq. }
  assert (Hold : <[ref := spread (read_object w (childContext d)) C2]> (objects w)
                   !! childContext d = Some C).
  { rewrite lookup_insert_ne by exact Hfresh. exact HC. }
  split; [reflexivity|]. split; [exact Hfresh|]. split; [reflexivity|].
  split; [exact Hold|]. split; [exact Hnew|].
  assert (Hkeep : objects (Delegating.setContext
                    {| loggers := loggers w;
                       objects := <[ref := spread (read_object w (childContext d)) C2]>
                                    (objects w) |} d U) !! ref = Some (C2 ∪ C)).
  { unfold Delegating.setContext. cbn [objects].
    rewrite lookup_alter_ne by congruence. exact Hnew. }
  split; [exact Hkeep|].
  split.
  - unfold Delegating.setContext. cbn [objects childContext].
    rewrite lookup_alter_ne by exact Hfresh. exact Hold.
  - apply (child_call_entry S _ {| parent := parent d; childContext := ref |} P (C2 ∪ C)).
    + exact HP.
    + exact Hkeep.
Qed.

Lemma grandchild_layer_is_a_snapshot_witness :
  let P := new_BaseLogger no_options in
  let w := {| loggers := {[ 0%nat := P ]}; objects := {[ 0%nat := {[ "level" := VStr "1" ]} ]} |} in
  let d := fst (Base.child w 0 0) in
  childContext (fst (Delegating.child w d {[ "level" := VStr "2" ]})) <> childContext d.
Proof.
  intros P w d.
  refine (proj1 (proj2 (grandchild_layer_is_a_snapshot w d P {[ "level" := VStr "1" ]}
            {[ "level" := VStr "2" ]} ∅ info_level "m" VUndefined None "t" _ _))).
  - vm_compute. reflexivity.
  - vm_compute. reflexivity.
Defined.

(** X12. A child's [setContext] is seen by the child's later entries: the
    child layer is then the old layer with the given mapping assigned
    over it, key by key, and the call-site context still wins over it. *)
Theorem child_setContext_updates_its_entries
    (w : World) (d : DelegatingLogger) (P : BaseLogger) (C U : LogContext)
    (S : LogLevel) (message : string) (err : JsValue) (L : option LogContext)
    (timestamp : string) :
  loggers w !! parent d = Some P ->
  objects w !! childContext d = Some C ->
  let w1 := Delegating.setContext w d U in
  loggers (child_call S w1 d message err L timestamp) !! parent d
    = Some (log_call S P message err (Some (default ∅ L ∪ Object_assign C U)) timestamp) /\
  (forall k, k <> "__proto__" ->
     (default ∅ L ∪ Object_assign C U) !! k =
     match default ∅ L !! k with
     | Some v => Some v
     | None => match U !! k with
               | Some v => Some v
               | None => C !! k
               end
     end).
Proof.
  intros HP HC w1. split.
  - apply (child_call_entry S w1 d P (Object_assign C U)).
    + exact HP.
    + unfold w1, Delegating.setContext. cbn [objects].
      rewrite lookup_alter_eq, HC. reflexivity.
  - intros k Hk. rewrite lookup_union, (Object_assign_lookup C U k Hk).
    destruct (default ∅ L !! k), (U !! k), (C !! k); reflexivity.
Qed.

Lemma child_setContext_updates_its_entries_witness :
  let P := setContext (new_BaseLogger no_options) {[ "service" := VStr "parent" ]} in
  let w := {| loggers := {[ 0%nat := P ]};
              objects := {[ 0%nat := {[ "requestId" := VStr "child-req" ]} ]} |} in
  let d := fst (Base.child w 0 0) in
  let w1 := Delegating.setContext w d {[ "extra" := VStr "childOnly" ]} in
  loggers (child_call info_level w1 d "child message" VUndefined None "t") !! parent d
  = Some (log_call info_level P "child message" VUndefined
            (Some (default ∅ None ∪
                   Object_assign {[ "requestId" := VStr "child-req" ]}
                     {[ "extra" := VStr "childOnly" ]})) "t").
Proof.
  intros P w d w1.
  refine (proj1 (child_setContext_updates_its_entries w d P
            {[ "requestId" := VStr "child-req" ]} {[ "extra" := VStr "childOnly" ]}
            info_level "child message" VUndefined None "t" _ _)).
  - vm_compute. reflexivity.
  - vm_compute. reflexivity.
Defined.

(** X13. The timing entry of a timer started through a child is the
    parent's: [timeAsync] on a child settles as the function does and
    ends the parent's timer, and the entry is built from the duration,
    the label and the parent's global context, without the child's
    layer. *)
Theorem child_timing_entry_is_the_parents
    {T : Type} (w : World) (d : DelegatingLogger) (label : string)
    (fn : World -> Settled T * World) (start finish : Z) (timestamp : string)
    (P1 : BaseLogger) :
  loggers (snd (fn w)) !! parent d = Some P1 ->
  let result := Delegating.timeAsync w d label fn start finish timestamp in
  let entry := timing_entry P1 label start finish timestamp in
  fst result = fst (fn w) /\
  objects (snd result) = objects (snd (fn w)) /\
  (exists P2,
     loggers (snd result) !! parent d = Some P2 /\
     written P2 = (written P1 ++ if shouldLog P1 debug_level then [entry] else [])%list) /\
  entry_context entry
    = emitted_context P1
        ({[ "duration" := VNum (finish - start); "label" := VStr label ]} ∪ globalContext P1) /\
  (forall k m,
     k <> "duration" -> k <> "label" ->
     has_property (globalContext P1) k = false ->
     entry_context entry = Some m -> m !! k = None).
Proof.
  intros HP1 result entry.
  unfold result, Delegating.timeAsync, Base.timeAsync, Base.end_timer, Base.time.
  destruct (fn w) as [outcome w1] eqn:Hfn. cbn [fst snd] in *.
  split; [reflexivity|]. split; [reflexivity|].
  assert (Hctx : entry_context entry
    = emitted_context P1
        ({[ "duration" := VNum (finish - start); "label" := VStr label ]} ∪ globalContext P1)).
  { apply createEntry_context_given. }
  split; [|split; [exact Hctx|]].
  - eexists. split; [rewrite with_logger_lookup, HP1; reflexivity|].
    unfold Timer_end, time, debug, entry, timing_entry. cbn [snd timer_label timer_start].
    destruct (shouldLog P1 debug_level); cbn [written write]; [reflexivity|].
    symmetry. apply app_nil_r.
  - intros k m Hd Hl Hk Hm. rewrite Hctx in Hm. unfold emitted_context in Hm.
    destruct (bool_decide _) in Hm; [discriminate|]. injection Hm as <-.
    apply redact_fields_absent.
    unfold has_property in *. apply orb_false_elim in Hk as [Hown Hproto].
    rewrite Hproto, orb_false_r. apply bool_decide_eq_false.
    apply bool_decide_eq_false in Hown.
    rewrite lookup_union, lookup_insert_ne, lookup_singleton_ne by congruence.
    intros [x Hx]. apply Hown. destruct (globalContext P1 !! k); [eauto|discriminate].
Qed.

Lemma child_timing_entry_is_the_parents_witness :
  let P := new_BaseLogger
    {| opt_level := Some (VStr "debug"); opt_format := None; opt_timestamps := None;
       opt_prefix := None; opt_sanitizeErrors := None; opt_redactFields := None |} in
  let w := {| loggers := {[ 0%nat := P ]};
              objects := {[ 0%nat := {[ "requestId" := VStr "123" ]} ]} |} in
  let d := fst (Base.child w 0 0) in
  let fn := fun w' : World => (Resolved 7%Z, w') in
  fst (Delegating.timeAsync w d "op" fn 0 50 "t") = Resolved 7%Z.
Proof.
  intros P w d fn.
  refine (proj1 (child_timing_entry_is_the_parents w d "op" fn 0 50 "t" P _)).
  vm_compute. reflexivity.
Defined.

(** * Further properties of the timer registry *)

Lemma perf_end_inactive (label : string) (now : Z) (r : perf.Registry) :
  perf.activeTimers r !! label = None ->
  perf.end_ label now r = (0%Z, perf.console_warn r (perf.not_started label)).
Proof. intros H. unfold perf.end_. rewrite H. reflexivity. Qed.

Lemma perf_end_active (label : string) (now started : Z) (r : perf.Registry) :
  perf.activeTimers r !! label = Some started ->
  perf.end_ label now r =
  ((now - started)%Z,
   {| perf.metricsStore :=
        <[label := perf.record_duration (perf.metricsStore r !! label) (now - started)]>
          (perf.metricsStore r);
      perf.activeTimers := delete label (perf.activeTimers r);
      perf.warnings := perf.warnings r |}).
Proof. intros H. unfold perf.end_. rewrite H. reflexivity. Qed.

Lemma perf_start_inactive (label : string) (now : Z) (r : perf.Registry) :
  perf.activeTimers r !! label = None ->
  perf.start label now r =
  (true, {| perf.metricsStore := perf.metricsStore r;
            perf.activeTimers := <[label := now]> (perf.activeTimers r);
            perf.warnings := perf.warnings r |}).
Proof.
  intros H. unfold perf.start.
  rewrite bool_decide_false by (rewrite H; intros [x Hx]; discriminate Hx).
  reflexivity.
Qed.

Lemma perf_start_active (label : string) (now started : Z) (r : perf.Registry) :
  perf.activeTimers r !! label = Some started ->
  perf.start label now r = (false, perf.console_warn r (perf.already_active label)).
Proof.
  intros H. unfold perf.start. rewrite bool_decide_true by (rewrite H; eauto). reflexivity.
Qed.

(** X14. [start] then [end] on a label that was not being timed: [start]
    succeeds, [end] returns the difference of the two clock readings, the
    active timers are afterwards what they were before, no warning is
    issued, and the statistics of that label alone are updated with the
    duration: one more sample, the sum increased by the duration. *)
Theorem start_end_round_trip (r : perf.Registry) (label : string) (t0 t1 : Z) :
  perf.activeTimers r !! label = None ->
  let r1 := snd (perf.start label t0 r) in
  let result := perf.end_ label t1 r1 in
  let recorded := perf.record_duration (perf.metricsStore r !! label) (t1 - t0) in
  fst (perf.start label t0 r) = true /\
  fst result = (t1 - t0)%Z /\
  perf.activeTimers (snd result) = perf.activeTimers r /\
  perf.warnings (snd result) = perf.warnings r /\
  perf.getMetrics label (snd result) = Some recorded /\
  (forall other, other <> label ->
     perf.getMetrics other (snd result) = perf.getMetrics other r) /\
  perf.count recorded =
    match perf.metricsStore r !! label with
    | Some m => (perf.count m + 1)%Z
    | None => 1%Z
    end /\
  perf.totalTime recorded =
    match perf.metricsStore r !! label with
    | Some m => (perf.totalTime m + (t1 - t0))%Z
    | None => (t1 - t0)%Z
    end.
Proof.
  intros Hnone r1 result recorded. unfold result, r1.
  rewrite (perf_start_inactive label t0 r Hnone). cbn [fst snd].
  rewrite (perf_end_active label t1 t0) by (cbn [perf.activeTimers]; apply lookup_insert_eq).
  cbn [fst snd perf.activeTimers perf.metricsStore perf.warnings].
  split; [reflexivity|]. split; [reflexivity|].
  split; [apply delete_insert_id; exact Hnone|].
  split; [reflexivity|].
  split; [unfold perf.getMetrics; cbn [perf.metricsStore]; apply lookup_insert_eq|].
  split.
  - intros other Hne. unfold perf.getMetrics. cbn [perf.metricsStore].
    apply lookup_insert_ne. congruence.
  - unfold recorded. destruct (perf.metricsStore r !! label); split; reflexivity.
Qed.

Lemma start_end_round_trip_witness :
  fst (perf.end_ "render" 125 (snd (perf.start "render" 100 perf.empty))) = 25%Z.
Proof.
  pose proof (start_end_round_trip perf.empty "render" 100 125 eq_refl) as H.
  cbv zeta in H. exact (proj1 (proj2 H)).
Defined.

Lemma record_duration_ordered (existing : option perf.MetricsData) (duration : Z) :
  (forall m, existing = Some m -> ordered m) ->
  ordered (perf.record_duration existing duration) /\
  (perf.minTime (perf.record_duration existing duration) <= duration)%Z /\
  (duration <= perf.maxTime (perf.record_duration existing duration))%Z.
Proof.
  intros H. destruct existing as [m|]; unfold ordered; cbn.
  - destruct (H m eq_refl) as [Hc _]. repeat split; lia.
  - repeat split; lia.
Qed.

(** X15. The recorded bounds stay in order: if every stored record has
    at least one sample and a minimum that is not above its maximum, so
    has every record after [start], [end] or [clearMetrics]; and after
    [end] on a running timer the record of the label has the duration
    just measured between its minimum and its maximum. *)
Theorem metrics_bounds_stay_ordered (r : perf.Registry) (label : string) (now : Z) :
  all_ordered r ->
  all_ordered (snd (perf.start label now r)) /\
  all_ordered (snd (perf.end_ label now r)) /\
  all_ordered (perf.clearMetrics r) /\
  (forall started, perf.activeTimers r !! label = Some started ->
     exists m,
       perf.getMetrics label (snd (perf.end_ label now r)) = Some m /\
       (perf.minTime m <= now - started)%Z /\
       (now - started <= perf.maxTime m)%Z).
Proof.
  intros Hall.
  assert (Hrecord : forall duration,
            ordered (perf.record_duration (perf.metricsStore r !! label) duration) /\
            (perf.minTime (perf.record_duration (perf.metricsStore r !! label) duration)
               <= duration)%Z /\
            (duration
               <= perf.maxTime (perf.record_duration (perf.metricsStore r !! label) duration))%Z).
  { intros duration. apply record_duration_ordered. intros m Hm. exact (Hall label m Hm). }
  split; [|split; [|split]].
  - unfold perf.start. destruct (bool_decide _); exact Hall.
  - unfold perf.end_. destruct (perf.activeTimers r !! label) as [started|];
      cbn [snd]; [|exact Hall].
    intros l m. cbn [perf.metricsStore].
    destruct (decide (label = l)) as [<-|Hne].
    + rewrite lookup_insert_eq. intros H. injection H as <-. apply Hrecord.
    + rewrite lookup_insert_ne by exact Hne. apply Hall.
  - intros l m. cbn [perf.clearMetrics perf.metricsStore]. rewrite lookup_empty. discriminate.
  - intros started Hstarted. unfold perf.end_, perf.getMetrics. rewrite Hstarted.
    cbn [snd perf.metricsStore]. rewrite lookup_insert_eq.
    eexists. split; [reflexivity|]. apply Hrecord.
Qed.

Lemma metrics_bounds_stay_ordered_witness :
  all_ordered
    (snd (perf.end_ "a" 30
       (snd (perf.start "a" 20
          {| perf.metricsStore :=
               {[ "a" := {| perf.count := 1; perf.totalTime := 5; perf.minTime := 5;
                            perf.maxTime := 5; perf.avgTime := 5 |} ]};
             perf.activeTimers := ∅;
             perf.warnings := [] |})))).
Proof.
  refine (proj1 (proj2 (metrics_bounds_stay_ordered
            (snd (perf.start "a" 20
               {| perf.metricsStore :=
                    {[ "a" := {| perf.count := 1; perf.totalTime := 5; perf.minTime := 5;
                                 perf.maxTime := 5; perf.avgTime := 5 |} ]};
                  perf.activeTimers := ∅;
                  perf.warnings := [] |})) "a" 30 _))).
  intros l m H.
  change (perf.metricsStore (snd (perf.start "a" 20 _)))
    with ({[ "a" := {| perf.count := 1; perf.totalTime := 5; perf.minTime := 5;
                       perf.maxTime := 5; perf.avgTime := 5 |} ]}
          : gmap string perf.MetricsData) in H.
  apply lookup_singleton_Some in H as [_ <-]. split; cbn; lia.
Defined.

(** X16. [clearMetrics] also forgets the timers in flight: after it,
    whatever was being timed, [getMetrics] finds nothing for any label,
    and [end] on any label returns 0, issues the warning for a timer that
    was not started, and records nothing. *)
Theorem clearMetrics_forgets_timers (r : perf.Registry) (label : string) (now : Z) :
  perf.getMetrics label (perf.clearMetrics r) = None /\
  perf.end_ label now (perf.clearMetrics r)
  = (0%Z, perf.console_warn (perf.clearMetrics r) (perf.not_started label)) /\
  perf.metricsStore (snd (perf.end_ label now (perf.clearMetrics r))) = ∅ /\
  fst (perf.start label now (perf.clearMetrics r)) = true.
Proof.
  assert (H : perf.activeTimers (perf.clearMetrics r) !! label = None) by apply lookup_empty.
  split; [apply lookup_empty|].
  rewrite (perf_end_inactive label now _ H), (perf_start_inactive label now _ H).
  repeat split.
Qed.

(** X17. [measureSync] around a function that leaves the timer of its
    label alone, on a label that was not being timed: the call ends as
    the function does, returning its value or throwing what it throws,
    and in both cases the timer is ended and the duration between the
    two clock readings is recorded for the label. *)
Theorem measureSync_records_and_propagates
    {T : Type} (label : string) (fn : perf.Registry -> perf.Completion T * perf.Registry)
    (t0 t1 : Z) (r : perf.Registry) :
  perf.activeTimers r !! label = None ->
  perf.activeTimers (snd (fn (snd (perf.start label t0 r)))) !! label = Some t0 ->
  let after_fn := snd (fn (snd (perf.start label t0 r))) in
  let result := perf.measureSync label fn t0 t1 r in
  fst result = fst (fn (snd (perf.start label t0 r))) /\
  perf.activeTimers (snd result) !! label = None /\
  perf.getMetrics label (snd result)
    = Some (perf.record_duration (perf.metricsStore after_fn !! label) (t1 - t0)) /\
  perf.warnings (snd result) = perf.warnings after_fn.
Proof.
  intros Hnone Hkept after_fn result. unfold result, after_fn, perf.measureSync.
  destruct (fn (snd (perf.start label t0 r))) as [completion r2] eqn:Hfn.
  cbn [fst snd] in *.
  rewrite (perf_end_active label t1 t0 r2 Hkept). cbn [snd].
  unfold perf.getMetrics. cbn [perf.activeTimers perf.metricsStore perf.warnings].
  split; [reflexivity|]. split; [apply lookup_delete_eq|].
  split; [apply lookup_insert_eq|reflexivity].
Qed.

Lemma measureSync_records_and_propagates_witness :
  let fn := fun r' : perf.Registry => (@perf.Thrown unit (VStr "Sync failure"), r') in
  fst (perf.measureSync "failing-sync" fn 0 30 perf.empty) = perf.Thrown (VStr "Sync failure").
Proof.
  intros fn.
  refine (proj1 (measureSync_records_and_propagates "failing-sync" fn 0 30 perf.empty _ _)).
  - reflexivity.
  - reflexivity.
Defined.

(** X18. [measure] on a label that is already being timed does not time
    its own function: its [start] only issues the warning, and, the
    function leaving the timer alone, its [end] ends the timer that was
    running, so that the duration recorded runs from the earlier start
    and the [end] of the earlier caller then finds no timer and returns
    0. The outcome of the function is passed on all the same. *)
Theorem measure_on_active_label_ends_running_timer
    {T : Type} (label : string) (fn : perf.Registry -> Settled T * perf.Registry)
    (earlier t0 t1 t2 : Z) (r : perf.Registry) :
  perf.activeTimers r !! label = Some earlier ->
  (forall r', perf.activeTimers (snd (fn r')) !! label = perf.activeTimers r' !! label) ->
  let warned := perf.console_warn r (perf.already_active label) in
  let result := perf.measure label fn t0 t1 r in
  fst result = fst (fn warned) /\
  perf.getMetrics label (snd result)
    = Some (perf.record_duration (perf.metricsStore (snd (fn warned)) !! label)
              (t1 - earlier)) /\
  perf.activeTimers (snd result) !! label = None /\
  fst (perf.end_ label t2 (snd result)) = 0%Z.
Proof.
  intros Hactive Hkeeps warned result. unfold result, perf.measure.
  rewrite (perf_start_active label t0 earlier r Hactive). cbn [snd]. fold warned.
  pose proof (Hkeeps warned) as Hk.
  destruct (fn warned) as [outcome r2] eqn:Hfn. cbn [fst snd] in *.
  assert (Hr2 : perf.activeTimers r2 !! label = Some earlier).
  { rewrite Hk. exact Hactive. }
  rewrite (perf_end_active label t1 earlier r2 Hr2). cbn [snd].
  unfold perf.getMetrics. cbn [perf.metricsStore perf.activeTimers].
  split; [reflexivity|]. split; [apply lookup_insert_eq|].
  split; [apply lookup_delete_eq|].
  rewrite perf_end_inactive; [reflexivity|].
  cbn [perf.activeTimers]. apply lookup_delete_eq.
Qed.

Lemma measure_on_active_label_ends_running_timer_witness :
  let r := snd (perf.start "fetch" 10 perf.empty) in
  let fn := fun r' : perf.Registry => (Resolved 1%Z, r') in
  perf.getMetrics "fetch" (snd (perf.measure "fetch" fn 20 50 r))
  = Some (perf.record_duration None 40).
Proof.
  intros r fn.
  refine (proj1 (proj2 (measure_on_active_label_ends_running_timer "fetch" fn 10 20 50 60 r _ _))).
  - reflexivity.
  - intros r'. reflexivity.
Defined.

(** * Further properties of the sanitizer *)

(** A successful match hands a suffix of the input to its continuation. *)
Lemma iterate_continues_on_suffix
    (atom : list ascii -> (list ascii -> option (list ascii)) -> option (list ascii))
    (greedy : bool) (k : list ascii -> option (list ascii)) :
  (forall s k' x, atom s k' = Some x -> exists p s', s = (p ++ s')%list /\ k' s' = Some x) ->
  forall fuel s x,
    iterate atom greedy k fuel s = Some x ->
    exists p s', s = (p ++ s')%list /\ k s' = Some x.
Proof.
  intros Hatom. induction fuel as [|fuel IH]; intros s x H.
  - exists [], s. split; [reflexivity|exact H].
  - cbn [iterate] in H.
    assert (Hagain : forall y,
      atom s (fun s' => if (length s' <? length s)%nat
                        then iterate atom greedy k fuel s' else None) = Some y ->
      exists p s', s = (p ++ s')%list /\ k s' = Some y).
    { intros y Hy. apply Hatom in Hy as (p1 & s1 & -> & Hy).
      destruct (length s1 <? length (p1 ++ s1))%nat; [|discriminate].
      apply IH in Hy as (p2 & s2 & -> & Hy).
      exists (p1 ++ p2)%list, s2. rewrite <- app_assoc. split; [reflexivity|exact Hy]. }
    destruct greedy.
    + destruct (atom s _) as [y|] eqn:E.
      * injection H as <-. apply Hagain. reflexivity.
      * exists [], s. split; [reflexivity|exact H].
    + destruct (k s) as [y|] eqn:E.
      * injection H as <-. exists [], s. split; [reflexivity|exact E].
      * apply Hagain. exact H.
Qed.

Lemma run_continues_on_suffix (icase : bool) (r : regex) :
  forall s k x,
    run icase r s k = Some x ->
    exists p s', s = (p ++ s')%list /\ k s' = Some x.
Proof.
  induction r as [|c|negated items|r1 IH1 r2 IH2|r1 IH1 r2 IH2|greedy r1 IH1|r1 IH1];
    intros s k x H; cbn [run] in H.
  - exists [], s. split; [reflexivity|exact H].
  - destruct s as [|a s']; [discriminate|].
    destruct (char_eq icase c a); [|discriminate].
    exists [a], s'. split; [reflexivity|exact H].
  - destruct s as [|a s']; [discriminate|].
    destruct (class_matches icase negated items a); [|discriminate].
    exists [a], s'. split; [reflexivity|exact H].
  - apply IH1 in H as (p1 & s1 & -> & H). apply IH2 in H as (p2 & s2 & -> & H).
    exists (p1 ++ p2)%list, s2. rewrite <- app_assoc. split; [reflexivity|exact H].
  - destruct (run icase r1 s k) as [y|] eqn:E.
    + injection H as <-. apply IH1. exact E.
    + apply IH2. exact H.
  - apply (iterate_continues_on_suffix (run icase r1) greedy k IH1 _ _ _ H).
  - destruct (run icase r1 s _); [discriminate|].
    exists [], s. split; [reflexivity|exact H].
Qed.

Lemma delimiter_class (c : ascii) :
  class_matches true false [CChar "="%char; CChar ":"%char] c = is_delimiter c.
Proof.
  destruct c as [[] [] [] [] [] [] [] []]; vm_compute; reflexivity.
Qed.

(** A pattern [key[=:]...] matches only where a delimiter follows. *)
Lemma key_rule_needs_delimiter (key rest : regex) (s : list ascii)
    (k : list ascii -> option (list ascii)) (x : list ascii) :
  run true (Seq key (Seq (OneOf "=:") rest)) s k = Some x ->
  existsb is_delimiter s = true.
Proof.
  cbn [run]. intros H.
  apply run_continues_on_suffix in H as (p & s1 & -> & H).
  change (OneOf "=:") with (Class false [CChar "="%char; CChar ":"%char]) in H.
  cbn [run] in H. destruct s1 as [|c s1']; [discriminate|].
  rewrite delimiter_class in H.
  destruct (is_delimiter c) eqn:Hc; [|discriminate].
  rewrite existsb_app. cbn [existsb]. rewrite Hc, orb_true_r. reflexivity.
Qed.

Lemma lits_need_the_word (word : string) (s : list ascii)
    (k : list ascii -> option (list ascii)) (x : list ascii) :
  run true (lits word) s k = Some x -> starts_with_ci word s = true.
Proof.
  revert s k. induction word as [|c word IH]; intros s k H; [reflexivity|].
  destruct word as [|c' word'].
  - cbn [lits run] in H. destruct s as [|a s']; [discriminate|].
    cbn [starts_with_ci]. destruct (char_eq true c a); [reflexivity|discriminate].
  - change (lits (String c (String c' word')))
      with (Seq (Lit c) (lits (String c' word'))) in H.
    cbn [run] in H. destruct s as [|a s']; [discriminate|].
    cbn [starts_with_ci]. destruct (char_eq true c a); [|discriminate].
    cbn [andb]. exact (IH s' k H).
Qed.

Lemma quiet_tail (c : ascii) (s : list ascii) : quiet (c :: s) -> quiet s.
Proof.
  intros [Hd Hb]. cbn [existsb] in Hd. cbn [mentions_ci] in Hb.
  apply orb_false_elim in Hd as [_ Hd]. apply orb_false_elim in Hb as [_ Hb].
  split; assumption.
Qed.

Lemma quiet_no_match (rule : regex * string) (s : list ascii) :
  In rule sanitize_rules -> quiet s -> match_length true (fst rule) s = None.
Proof.
  intros Hin [Hd Hb]. unfold match_length.
  destruct (run true (fst rule) s (fun s' => Some s')) as [x|] eqn:E; [|reflexivity].
  exfalso. cbn [sanitize_rules In] in Hin.
  destruct Hin as [<-|[<-|[<-|[<-|[<-|[<-|[<-|[<-|[]]]]]]]]]; cbn [fst] in E.
  - unfold re_bearer in E. cbn [run] in E.
    apply lits_need_the_word in E.
    destruct s; cbn [mentions_ci] in Hb; rewrite E in Hb; discriminate Hb.
  - apply key_rule_needs_delimiter in E. congruence.
  - apply key_rule_needs_delimiter in E. congruence.
  - apply key_rule_needs_delimiter in E. congruence.
  - apply key_rule_needs_delimiter in E. congruence.
  - apply key_rule_needs_delimiter in E. congruence.
  - apply key_rule_needs_delimiter in E. congruence.
  - apply key_rule_needs_delimiter in E. congruence.
Qed.

Lemma quiet_replace_from (rule : regex * string) (s : list ascii) :
  In rule sanitize_rules -> quiet s ->
  replace_from true (fst rule) (list_ascii_of_string (snd rule)) s 0 = s.
Proof.
  intros Hin. induction s as [|c s IH]; intros Hq; cbn [replace_from].
  - rewrite (quiet_no_match rule [] Hin Hq). reflexivity.
  - rewrite (quiet_no_match rule (c :: s) Hin Hq), IH; [reflexivity|].
    exact (quiet_tail c s Hq).
Qed.

(** X19. A message that holds neither [=] nor [:] and does not mention
    the word [Bearer], in any case of its letters, is returned as it is
    by the sanitizer; the empty message is one of them. *)
Theorem sanitize_without_trigger_is_identity (message : string) :
  existsb is_delimiter (list_ascii_of_string message) = false ->
  mentions_ci "Bearer" (list_ascii_of_string message) = false ->
  sanitizeErrorMessage message = message.
Proof.
  intros Hd Hb.
  assert (Hrule : forall rule, In rule sanitize_rules -> apply_rule message rule = message).
  { intros rule Hin. unfold apply_rule, replace.
    rewrite (quiet_replace_from rule _ Hin (conj Hd Hb)).
    apply string_of_list_ascii_of_string. }
  unfold sanitizeErrorMessage.
  assert (Hfold : forall rules, (forall rule, In rule rules -> In rule sanitize_rules) ->
            fold_left apply_rule rules message = message).
  { induction rules as [|rule rules IH]; intros Hsub; [reflexivity|].
    cbn [fold_left]. rewrite Hrule by (apply Hsub; left; reflexivity).
    apply IH. intros r Hr. apply Hsub. right. exact Hr. }
  apply Hfold. auto.
Qed.

Lemma sanitize_without_trigger_is_identity_witness :
  sanitizeErrorMessage "Something went wrong" = "Something went wrong".
Proof.
  apply (sanitize_without_trigger_is_identity "Something went wrong").
  - reflexivity.
  - reflexivity.
Defined.

(** * Properties of the presets *)

(** ** The browser logger *)

Lemma browser_perform_adapter (self : browser.BrowserLogger) (c : Call) :
  browser.adapter (browser_perform self c) = perform (browser.adapter self) c /\
  browser.wrapped (browser_perform self c) = browser.wrapped self.
Proof.
  destruct c as [severity message err context timestamp|context].
  - destruct severity; split; reflexivity.
  - split; reflexivity.
Qed.

Lemma browser_perform_all_adapter (calls : list Call) (self : browser.BrowserLogger) :
  browser.adapter (browser_perform_all self calls) = perform_all (browser.adapter self) calls /\
  browser.wrapped (browser_perform_all self calls) = browser.wrapped self.
Proof.
  revert self. induction calls as [|c calls IH]; intros self; [split; reflexivity|].
  unfold browser_perform_all, perform_all. cbn [fold_left].
  fold (browser_perform_all (browser_perform self c) calls).
  fold (perform_all (perform (browser.adapter self) c) calls).
  destruct (IH (browser_perform self c)) as [Ha Hw].
  destruct (browser_perform_adapter self c) as [Ha1 Hw1].
  rewrite Ha, Hw, Ha1, Hw1. split; reflexivity.
Qed.





(** X21. In development, or without an error tracker, no call of any
    sequence reaches a tracker, and the logger is the console adapter. *)
Theorem browser_logger_unwrapped_never_reports (options : browser.BrowserLoggerOptions)
    (env : browser.Environment) (calls : list Call) :
  browser.errorTracker options = false \/ isDevMode options env = true ->
  browser.tracked (browser_perform_all (browser.createBrowserLogger options env) calls) = [] /\
  browser.adapter (browser_perform_all (browser.createBrowserLogger options env) calls)
    = perform_all (browser.adapter (browser.createBrowserLogger options env)) calls.
Proof.
  intros Hcase. split; [|apply browser_perform_all_adapter].
  assert (Hinit : browser.wrapped (browser.createBrowserLogger options env) = false /\
            browser.tracked (browser.createBrowserLogger options env) = []).
  { unfold browser.createBrowserLogger. fold (isDevMode options env). cbn.
    split; [|reflexivity].
    destruct Hcase as [-> | ->]; [reflexivity|apply andb_false_r]. }
  generalize dependent (browser.createBrowserLogger options env).
  induction calls as [|c calls IH]; intros self [Hw Ht]; [exact Ht|].
  unfold browser_perform_all. cbn [fold_left].
  fold (browser_perform_all (browser_perform self c) calls).
  apply IH. destruct (browser_perform_adapter self c) as [_ Hw1].
  split; [rewrite Hw1; exact Hw|].
  destruct c as [severity message err context timestamp|context]; [|exact Ht].
  destruct severity; cbn [browser_perform]; try exact Ht.
  - unfold browser.warn, browser.track. rewrite Hw. exact Ht.
  - unfold browser.error, browser.track. rewrite Hw. exact Ht.
Qed.

Lemma browser_logger_unwrapped_never_reports_witness :
  browser.tracked
    (browser_perform_all
       (browser.createBrowserLogger
          {| browser.isDev := Some true; browser.errorTracker := true;
             browser.prefix := None |}
          {| browser.DEV := None; browser.MODE := None; browser.NODE_ENV := None |})
       [call_log error_level "failed" (VStr "boom") None "t0"]) = [].
Proof.
  apply (browser_logger_unwrapped_never_reports
           {| browser.isDev := Some true; browser.errorTracker := true;
              browser.prefix := None |}
           {| browser.DEV := None; browser.MODE := None; browser.NODE_ENV := None |}
           [call_log error_level "failed" (VStr "boom") None "t0"]).
  right. reflexivity.
Defined.

Lemma emitted_context_own_property (self : BaseLogger) (merged : LogContext)
    (k : string) (v : JsValue) :
  merged !! k = Some v ->
  exists m,
    emitted_context self merged = Some m /\
    m = redactSensitiveFields self merged /\
    m !! k = Some (if bool_decide (k ∈ fieldsToRedact self) then VStr REDACTED else v).
Proof.
  intros Hk. pose proof (redact_own_property self merged k v Hk) as Hr.
  exists (redactSensitiveFields self merged). unfold emitted_context.
  rewrite bool_decide_false; [auto|].
  intros He. rewrite He, lookup_empty in Hr. discriminate Hr.
Qed.

(** X22. In production with an error tracker, an [error] call with an
    Error object and a context that holds a redact field writes one
    console entry whose error has the sanitized message and no stack and
    whose context shows the sentinel for that field, while the tracker
    receives the Error object and the context as the caller passed
    them. *)
Theorem browser_tracker_receives_the_callers_values (options : browser.BrowserLoggerOptions)
    (env : browser.Environment) (name text : string) (code : CodeAttr)
    (stack : option string) (context : LogContext) (k : string) (v : JsValue)
    (message timestamp : string) :
  browser.errorTracker options = true ->
  isDevMode options env = false ->
  context !! k = Some v ->
  k ∈ DEFAULT_REDACT_FIELDS ->
  exists entry info emitted,
    written (browser.adapter
      (browser.error (browser.createBrowserLogger options env) message
         (VError name text code stack) (Some context) timestamp)) = [entry] /\
    entry_error entry = Some info /\
    err_message info = sanitizeErrorMessage text /\
    err_stack info = None /\
    entry_context entry = Some emitted /\
    emitted !! k = Some (VStr REDACTED) /\
    browser.tracked
      (browser.error (browser.createBrowserLogger options env) message
         (VError name text code stack) (Some context) timestamp)
      = [browser.captureException (VError name text code stack) (Some context)].
Proof.
  intros Htracker Hdev Hk Hfield.
  unfold browser.createBrowserLogger. fold (isDevMode options env).
  rewrite Hdev, Htracker. cbn [negb andb].
  set (adapter0 := new_ConsoleAdapter _).
  assert (Hlog : shouldLog adapter0 error_level = true).
  { rewrite (shouldLog_rank adapter0 warn_level error_level); reflexivity. }
  assert (Hglobal : globalContext adapter0 = ∅) by reflexivity.
  assert (Hfields : fieldsToRedact adapter0 = DEFAULT_REDACT_FIELDS) by reflexivity.
  assert (Hsan : cfg_sanitizeErrors (config adapter0) = true) by reflexivity.
  assert (Hempty : written adapter0 = []) by reflexivity.
  unfold browser.error, browser.track, error.
  cbn [browser.adapter browser.wrapped browser.tracked instanceof_Error].
  rewrite Hlog. cbn [write written]. rewrite Hempty.
  assert (Hmerged : (context ∪ globalContext adapter0) !! k = Some v).
  { rewrite Hglobal, (right_id_L ∅ (∪)). exact Hk. }
  destruct (emitted_context_own_property adapter0 _ k v Hmerged) as (m & Hm & _ & Hmk).
  rewrite Hfields, bool_decide_true in Hmk by exact Hfield.
  eexists. exists (formatError adapter0 (VError name text code stack)), m.
  split; [reflexivity|]. split; [reflexivity|].
  split; [cbn [formatError err_message]; rewrite Hsan; reflexivity|].
  split; [apply formatError_sanitized_has_no_stack; exact Hsan|].
  split; [rewrite createEntry_context_given; exact Hm|].
  split; [exact Hmk|reflexivity].
Qed.

Lemma browser_tracker_receives_the_callers_values_witness :
  exists entry info emitted,
    written (browser.adapter
      (browser.error
         (browser.createBrowserLogger
            {| browser.isDev := Some false; browser.errorTracker := true;
               browser.prefix := None |}
            {| browser.DEV := None; browser.MODE := None; browser.NODE_ENV := None |})
         "login failed" (VError "Error" "password=hunter2" CodeAbsent (Some "at login"))
         (Some {[ "password" := VStr "hunter2" ]}) "t")) = [entry] /\
    entry_error entry = Some info /\
    err_message info = sanitizeErrorMessage "password=hunter2" /\
    err_stack info = None /\
    entry_context entry = Some emitted /\
    emitted !! "password" = Some (VStr REDACTED) /\
    browser.tracked
      (browser.error
         (browser.createBrowserLogger
            {| browser.isDev := Some false; browser.errorTracker := true;
               browser.prefix := None |}
            {| browser.DEV := None; browser.MODE := None; browser.NODE_ENV := None |})
         "login failed" (VError "Error" "password=hunter2" CodeAbsent (Some "at login"))
         (Some {[ "password" := VStr "hunter2" ]}) "t")
      = [browser.captureException
           (VError "Error" "password=hunter2" CodeAbsent (Some "at login"))
           (Some {[ "password" := VStr "hunter2" ]})].
Proof.
  apply (browser_tracker_receives_the_callers_values
           {| browser.isDev := Some false; browser.errorTracker := true;
              browser.prefix := None |}
           {| browser.DEV := None; browser.MODE := None; browser.NODE_ENV := None |}
           "Error" "password=hunter2" CodeAbsent (Some "at login")
           {[ "password" := VStr "hunter2" ]} "password" (VStr "hunter2")
           "login failed" "t").
  - reflexivity.
  - reflexivity.
  - apply lookup_singleton_eq.
  - apply elem_of_cons. left. reflexivity.
Defined.

(** ** The worker logger *)

Lemma worker_config (options : worker.WorkerLoggerOptions) (requestId : option string) :
  cfg_level (config (worker.createWorkerLogger options requestId))
    = worker.nullish_or (worker.level options)
        (if String.eqb (worker.environment options) "production"
         then VStr "info" else VStr "debug") /\
  fieldsToRedact (worker.createWorkerLogger options requestId) = WORKER_REDACT_FIELDS /\
  cfg_sanitizeErrors (config (worker.createWorkerLogger options requestId)) = true /\
  written (worker.createWorkerLogger options requestId) = [].
Proof. repeat split. Qed.

Lemma worker_globalContext (options : worker.WorkerLoggerOptions)
    (requestId : option string) :
  globalContext (worker.createWorkerLogger options requestId)
  = worker.optional_property "requestId" requestId ∪
    (worker.optional_property "version" (worker.version options) ∪
     {[ "service" := VStr (worker.service options);
        "environment" := VStr (worker.environment options) ]}).
Proof.
  unfold worker.createWorkerLogger, setContext, spread. cbn [globalContext new_JsonAdapter
    new_BaseLogger]. apply (right_id_L ∅ (∪)).
Qed.

Lemma optional_property_other (name : string) (value : option string) (k : string) :
  k <> name -> worker.optional_property name value !! k = None.
Proof.
  intros Hk. unfold worker.optional_property.
  destruct value as [v|]; [|apply lookup_empty].
  destruct (String.eqb v ""); [apply lookup_empty|].
  apply lookup_singleton_ne. congruence.
Qed.

(** X23. A worker logger created without a level (absent or null) drops
    exactly the debug calls when the environment is the string
    [production], and drops nothing in any other environment. *)
Theorem worker_default_level (options : worker.WorkerLoggerOptions)
    (requestId : option string) (S : LogLevel) :
  worker.level options = VUndefined \/ worker.level options = VNull ->
  shouldLog (worker.createWorkerLogger options requestId) S
  = negb (String.eqb (worker.environment options) "production"
          && (rank S =? rank debug_level)%Z).
Proof.
  intros Hlevel.
  destruct (worker_config options requestId) as (Hcfg & _).
  assert (Hdefault : cfg_level (config (worker.createWorkerLogger options requestId))
            = if String.eqb (worker.environment options) "production"
              then VStr "info" else VStr "debug").
  { rewrite Hcfg. destruct Hlevel as [-> | ->]; reflexivity. }
  destruct (String.eqb (worker.environment options) "production").
  - rewrite (shouldLog_rank _ info_level S Hdefault). destruct S; reflexivity.
  - rewrite (shouldLog_rank _ debug_level S Hdefault). destruct S; reflexivity.
Qed.

Lemma worker_default_level_witness :
  shouldLog (worker.createWorkerLogger
               {| worker.service := "api"; worker.environment := "production";
                  worker.version := None; worker.level := VUndefined |} None) debug_level
  = false.
Proof.
  apply (worker_default_level
           {| worker.service := "api"; worker.environment := "production";
              worker.version := None; worker.level := VUndefined |} None debug_level).
  left. reflexivity.
Defined.

(** The service context holds four names at most, none a redact field. *)
Lemma worker_context_names (options : worker.WorkerLoggerOptions)
    (requestId : option string) (k : string) (v : JsValue) :
  globalContext (worker.createWorkerLogger options requestId) !! k = Some v ->
  bool_decide (k ∈ WORKER_REDACT_FIELDS) = false.
Proof.
  rewrite worker_globalContext. intros H.
  assert (Hk : k = "requestId" \/ k = "version" \/ k = "service" \/ k = "environment").
  { destruct (decide (k = "requestId")) as [|H1]; [auto|].
    destruct (decide (k = "version")) as [|H2]; [auto|].
    destruct (decide (k = "service")) as [|H3]; [auto|].
    destruct (decide (k = "environment")) as [|H4]; [auto|].
    rewrite !lookup_union, !optional_property_other in H by assumption.
    rewrite lookup_insert_ne, lookup_singleton_ne in H by congruence.
    discriminate H. }
  destruct Hk as [-> | [-> | [-> | ->]]]; reflexivity.
Qed.

(** One call keeps a property of the global context that it does not
    give itself, and the entry it writes carries that property. *)
Lemma perform_keeps_property (self : BaseLogger) (c : Call) (k : string) (v : JsValue) :
  bool_decide (k ∈ fieldsToRedact self) = false ->
  globalContext self !! k = Some v ->
  call_context c !! k = None ->
  Forall (fun e => exists m, entry_context e = Some m /\ m !! k = Some v) (written self) ->
  fieldsToRedact (perform self c) = fieldsToRedact self /\
  globalContext (perform self c) !! k = Some v /\
  Forall (fun e => exists m, entry_context e = Some m /\ m !! k = Some v)
    (written (perform self c)).
Proof.
  intros Hfield Hglobal Hcall Hwritten.
  destruct c as [severity message err context timestamp|context]; cbn [perform call_context] in *.
  - rewrite log_call_unfold. destruct (shouldLog self severity); [|auto].
    cbn [write globalContext written]. split; [reflexivity|]. split; [exact Hglobal|].
    apply Forall_app. split; [exact Hwritten|]. constructor; [|constructor].
    assert (Hmerged : (default ∅ context ∪ globalContext self) !! k = Some v).
    { rewrite lookup_union, Hcall, Hglobal. reflexivity. }
    destruct (emitted_context_own_property self _ k v Hmerged) as (m & Hm & _ & Hmk).
    rewrite Hfield in Hmk. exists m. split; [|exact Hmk].
    destruct context as [given|]; cbn [default] in Hm.
    + rewrite createEntry_context_given. exact Hm.
    + rewrite createEntry_context_omitted. rewrite (left_id_L ∅ (∪)) in Hm.
      assert (Hne : globalContext self <> ∅).
      { intros He. rewrite He, lookup_empty in Hglobal. discriminate Hglobal. }
      rewrite (bool_decide_false _ Hne). exact Hm.
  - split; [reflexivity|]. split; [|exact Hwritten].
    unfold setContext, spread. cbn [globalContext].
    rewrite lookup_union, Hcall, Hglobal. reflexivity.
Qed.

(** X24. The service context of a worker logger reaches every entry: the
    logger is created with the service and the environment of its
    options in its global context, and with the request id when a
    non-empty one is given; and over any sequence of log calls and
    [setContext] calls none of which gives a property of that name
    itself, every entry written carries the property with the value it
    was created with. A call that gives the name itself replaces the
    value. *)
Theorem worker_entries_carry_service_context (options : worker.WorkerLoggerOptions)
    (requestId : option string) (calls : list Call) (k : string) (v : JsValue) :
  globalContext (worker.createWorkerLogger options requestId) !! k = Some v ->
  Forall (fun c => call_context c !! k = None) calls ->
  globalContext (worker.createWorkerLogger options requestId) !! "service"
    = Some (VStr (worker.service options)) /\
  globalContext (worker.createWorkerLogger options requestId) !! "environment"
    = Some (VStr (worker.environment options)) /\
  (forall r, requestId = Some r -> r <> "" ->
     globalContext (worker.createWorkerLogger options requestId) !! "requestId"
       = Some (VStr r)) /\
  Forall (fun e => exists m, entry_context e = Some m /\ m !! k = Some v)
    (written (perform_all (worker.createWorkerLogger options requestId) calls)).
Proof.
  intros Hglobal Hcalls.
  split; [|split; [|split]].
  - rewrite worker_globalContext, !lookup_union, !optional_property_other by discriminate.
    rewrite lookup_insert_eq. reflexivity.
  - rewrite worker_globalContext, !lookup_union, !optional_property_other by discriminate.
    rewrite lookup_insert_ne, lookup_singleton_eq by discriminate. reflexivity.
  - intros r -> Hr. rewrite worker_globalContext, lookup_union.
    unfold worker.optional_property at 1.
    rewrite (proj2 (String.eqb_neq r "") Hr), lookup_singleton_eq.
    rewrite lookup_union, optional_property_other by discriminate. reflexivity.
  - pose proof (worker_context_names options requestId k v Hglobal) as Hfield.
    destruct (worker_config options requestId) as (_ & Hfields & _ & Hempty).
    rewrite <- Hfields in Hfield.
    assert (Hwritten : Forall (fun e => exists m, entry_context e = Some m /\ m !! k = Some v)
                         (written (worker.createWorkerLogger options requestId))).
    { rewrite Hempty. constructor. }
    clear Hfields Hempty.
    generalize dependent (worker.createWorkerLogger options requestId).
    induction calls as [|c calls IH]; intros self Hglobal Hfield Hwritten; [exact Hwritten|].
    apply Forall_cons in Hcalls as [Hc Hcalls].
    unfold perform_all. cbn [fold_left]. fold (perform_all (perform self c) calls).
    destruct (perform_keeps_property self c k v Hfield Hglobal Hc Hwritten)
      as (Hfields' & Hglobal' & Hwritten').
    apply (IH Hcalls); [exact Hglobal'|rewrite Hfields'; exact Hfield|exact Hwritten'].
Qed.

Lemma worker_entries_carry_service_context_witness :
  Forall (fun e => exists m, entry_context e = Some m /\ m !! "service" = Some (VStr "api"))
    (written
       (perform_all
          (worker.createWorkerLogger
             {| worker.service := "api"; worker.environment := "production";
                worker.version := None; worker.level := VUndefined |} (Some "r-1"))
          [call_log info_level "Request received" VUndefined None "t0";
           call_setContext {[ "user" := VNum 7 ]};
           call_log error_level "failed" (VStr "boom") (Some {[ "path" := VStr "/x" ]}) "t1"])).
Proof.
  refine (proj2 (proj2 (proj2
            (worker_entries_carry_service_context
               {| worker.service := "api"; worker.environment := "production";
                  worker.version := None; worker.level := VUndefined |} (Some "r-1")
               [call_log info_level "Request received" VUndefined None "t0";
                call_setContext {[ "user" := VNum 7 ]};
                call_log error_level "failed" (VStr "boom")
                  (Some {[ "path" := VStr "/x" ]}) "t1"]
               "service" (VStr "api") _ _)))).
  - vm_compute. reflexivity.
  - repeat (constructor; [vm_compute; reflexivity|]). constructor.
Defined.

(** X25. A worker logger redacts the worker secrets as well as the core
    fields: whatever the call-site context holds under a name of
    [WORKER_REDACT_FIELDS] is written as the sentinel. *)
Theorem worker_secrets_are_redacted (options : worker.WorkerLoggerOptions)
    (requestId : option string) (S : LogLevel) (message : string) (err : JsValue)
    (context : LogContext) (k : string) (v : JsValue) (timestamp : string) :
  shouldLog (worker.createWorkerLogger options requestId) S = true ->
  k ∈ WORKER_REDACT_FIELDS ->
  context !! k = Some v ->
  exists entry emitted,
    written (log_call S (worker.createWorkerLogger options requestId)
               message err (Some context) timestamp) = [entry] /\
    entry_context entry = Some emitted /\
    emitted !! k = Some (VStr REDACTED).
Proof.
  intros Hlog Hfield Hk.
  set (self := worker.createWorkerLogger options requestId) in *.
  destruct (worker_config options requestId) as (_ & Hfields & _ & Hempty).
  fold self in Hfields, Hempty.
  rewrite log_call_unfold, Hlog. cbn [write written]. rewrite Hempty. cbn [app].
  assert (Hmerged : (context ∪ globalContext self) !! k = Some v).
  { rewrite lookup_union, Hk. destruct (globalContext self !! k); reflexivity. }
  destruct (emitted_context_own_property self _ k v Hmerged) as (m & Hm & _ & Hmk).
  rewrite Hfields, bool_decide_true in Hmk by exact Hfield.
  eexists. exists m. split; [reflexivity|].
  split; [rewrite createEntry_context_given; exact Hm|exact Hmk].
Qed.

Lemma worker_secrets_are_redacted_witness :
  exists entry emitted,
    written (log_call error_level
               (worker.createWorkerLogger
                  {| worker.service := "api"; worker.environment := "production";
                     worker.version := None; worker.level := VUndefined |} None)
               "bad signature" VUndefined (Some {[ "jwt_secret" := VStr "s3cr3t" ]}) "t")
      = [entry] /\
    entry_context entry = Some emitted /\
    emitted !! "jwt_secret" = Some (VStr REDACTED).
Proof.
  apply (worker_secrets_are_redacted
           {| worker.service := "api"; worker.environment := "production";
              worker.version := None; worker.level := VUndefined |} None
           error_level "bad signature" VUndefined {[ "jwt_secret" := VStr "s3cr3t" ]}
           "jwt_secret" (VStr "s3cr3t") "t").
  - reflexivity.
  - unfold WORKER_REDACT_FIELDS. apply elem_of_app. right.
    apply elem_of_cons. left. reflexivity.
  - apply lookup_singleton_eq.
Defined.

Lemma or_else_not_empty (a : option string) (b : string) :
  b <> "" -> worker.or_else a b <> "".
Proof.
  intros Hb. unfold worker.or_else. destruct a as [v|]; [|exact Hb].
  destruct (String.eqb v "") eqn:E; [exact Hb|]. apply String.eqb_neq. exact E.
Qed.

(** X26. The request id taken from a request is never empty when the
    generated identifier is not, whatever the headers hold, and the
    request logger created with it has it in its global context under
    [requestId]. *)
Theorem request_logger_has_its_request_id (headers : gmap string string) (uuid : string)
    (ENVIRONMENT : string) (API_VERSION SERVICE_NAME : option string) :
  uuid <> "" ->
  worker.getRequestId headers uuid <> "" /\
  globalContext
    (worker.createRequestLogger ENVIRONMENT API_VERSION SERVICE_NAME
       (worker.getRequestId headers uuid)) !! "requestId"
  = Some (VStr (worker.getRequestId headers uuid)).
Proof.
  intros Huuid.
  assert (Hid : worker.getRequestId headers uuid <> "").
  { unfold worker.getRequestId. apply or_else_not_empty, or_else_not_empty. exact Huuid. }
  split; [exact Hid|].
  unfold worker.createRequestLogger. rewrite worker_globalContext, lookup_union.
  unfold worker.optional_property at 1.
  rewrite (proj2 (String.eqb_neq _ "") Hid), lookup_singleton_eq.
  rewrite lookup_union, optional_property_other by discriminate. reflexivity.
Qed.

Lemma request_logger_has_its_request_id_witness :
  worker.getRequestId {[ "x-request-id" := ""; "cf-ray" := "8a1b" ]} "uuid-0" <> "" /\
  globalContext
    (worker.createRequestLogger "production" None None
       (worker.getRequestId {[ "x-request-id" := ""; "cf-ray" := "8a1b" ]} "uuid-0"))
    !! "requestId"
  = Some (VStr (worker.getRequestId {[ "x-request-id" := ""; "cf-ray" := "8a1b" ]} "uuid-0")).
Proof.
  apply (request_logger_has_its_request_id
           {[ "x-request-id" := ""; "cf-ray" := "8a1b" ]} "uuid-0" "production" None None).
  discriminate.
Defined.

(** ** The library logger *)

(** X27. A library logger created with a non-empty prefix and a
    configuration that gives neither level nor prefix writes every call,
    whatever its severity, with the message behind the bracketed
    prefix. *)
Theorem library_logger_writes_all_with_prefix (prefix : string) (c : PartialConfig)
    (S : LogLevel) (message : string) (err : JsValue) (context : option LogContext)
    (timestamp : string) :
  prefix <> "" ->
  opt_level c = None ->
  opt_prefix c = None ->
  exists entry,
    written (log_call S (library.createLibraryLogger prefix c)
               message err context timestamp) = [entry] /\
    entry_level entry = S /\
    entry_message entry = "[" +:+ prefix +:+ "] " +:+ message.
Proof.
  intros Hprefix Hlevel Hp.
  set (self := library.createLibraryLogger prefix c).
  assert (Hcfg : cfg_level (config self) = VStr (level_name debug_level)).
  { subst self. unfold library.createLibraryLogger, new_ConsoleAdapter, new_BaseLogger, overlay.
    cbn. rewrite Hlevel. reflexivity. }
  assert (Hpre : cfg_prefix (config self) = Some prefix).
  { subst self. unfold library.createLibraryLogger, new_ConsoleAdapter, new_BaseLogger, overlay.
    cbn. rewrite Hp. reflexivity. }
  rewrite log_call_unfold, (shouldLog_rank self debug_level S Hcfg).
  assert (Hrank : (rank S >=? rank debug_level)%Z = true) by (destruct S; reflexivity).
  rewrite Hrank. eexists. split; [reflexivity|]. split; [reflexivity|].
  cbn [createEntry entry_message]. unfold prefixed. rewrite Hpre.
  rewrite (proj2 (String.eqb_neq prefix "") Hprefix). reflexivity.
Qed.

Lemma library_logger_writes_all_with_prefix_witness :
  exists entry,
    written (log_call debug_level (library.createLibraryLogger "xivdyetools:color" no_options)
               "Converting hex to RGB" VUndefined None "t") = [entry] /\
    entry_level entry = debug_level /\
    entry_message entry = "[" +:+ "xivdyetools:color" +:+ "] " +:+ "Converting hex to RGB".
Proof.
  apply (library_logger_writes_all_with_prefix "xivdyetools:color" no_options debug_level
           "Converting hex to RGB" VUndefined None "t").
  - discriminate.
  - reflexivity.
  - reflexivity.
Defined.
